(** * Centrifugo messaging example: relay server and Svelte client

    A shallow embedding of the Go relay (token issuer, publisher, message
    router) and of the script block of the Svelte page (subscription
    registry, topic switch, reconnect on user change), followed by the
    properties established about them. *)

From Stdlib Require Import ZArith Lia.
From stdpp Require Import gmap strings list fin_maps pretty sorting.

Local Open Scope string_scope.
Local Open Scope list_scope.

(** ** The relay server (Go) *)

Module Server.

(** *** Time: [time.Time] as nanoseconds since the Unix epoch *)

Definition Time := Z.
Definition Duration := Z.

Definition Second : Duration := 1000000000%Z.
Definition Hour : Duration := (3600 * Second)%Z.

Definition Add (t : Time) (d : Duration) : Time := (t + d)%Z.

(** [t.Unix()]: whole seconds since the epoch, rounded down. *)
Definition Unix (t : Time) : Z := (t `div` Second)%Z.

(** [t.UnixNano()] is an [int64]. *)
Definition wrap64 (z : Z) : Z :=
  ((z + 2 ^ 63) `mod` 2 ^ 64 - 2 ^ 63)%Z.

Definition UnixNano (t : Time) : Z := wrap64 t.

(** *** Data *)

Record Message := {
  ID : string;
  Topic : string;
  Content : string;
  Author : string;
  Timestamp : Time
}.

Record PublishRequest := {
  Channel : string;
  Data : Message
}.

Record SendMessageRequest := {
  reqTopic : string;
  reqContent : string;
  reqAuthor : string
}.

Record TokenRequest := { User : string }.

Record CentrifugoConfig := {
  URL : string;
  APIKey : string;
  TokenHMACSecretKey : string
}.

(** [jwt.MapClaims] is a [map[string]interface{}]; the values stored by
    this program are strings and integers. *)
Inductive ClaimValue :=
| ClaimStr (s : string)
| ClaimInt (n : Z).

Inductive SigningMethod := SigningMethodHS256.

(** Go [error] values built by the program, by the [fmt.Errorf] that
    makes them. *)
Inductive Error :=
| ErrSign (cause : string)
| ErrCreateRequest (cause : string)
| ErrSendRequest (cause : string)
| ErrCentrifugoAPI (StatusCode : Z) (respBody : string).

(** What the HTTP client gives back for one publish request. *)
Inductive HttpOutcome :=
| NewRequestFails (cause : string)
| DoFails (cause : string)
| HttpResponse (StatusCode : Z) (respBody : string).

Definition StatusOK : Z := 200.
Definition StatusBadRequest : Z := 400.
Definition StatusInternalServerError : Z := 500.

(** Bodies handed to [c.JSON]. *)
Inductive Body :=
| H_error (error : string)
| TokenResponse (Token : string)
| H_success (success : bool) (message : Message)
| H_topics (topics : list string).

Record Response := JSON { status : Z; body : Body }.

Inductive LogEntry :=
| LogFailedToGenerateToken (e : Error)
| LogFailedToPublishTopic (topic : string) (e : Error)
| LogFailedToPublishCentrifugo (e : Error)
| LogFailedToPublishAll (e : Error).

(** *** The process and its surroundings *)

(** What a handler can observe and change: how often the clock was read,
    the publish calls made so far, and the log. *)
Record World := {
  clockReads : nat;
  attempts : list PublishRequest;
  logged : list LogEntry
}.

Definition M (A : Type) : Type := World → A * World.

Definition ret {A} (a : A) : M A := λ w, (a, w).

Definition bind {A B} (m : M A) (k : A → M B) : M B :=
  λ w, let '(a, w') := m w in k a w'.

Notation "'let*' x ':=' m 'in' k" := (bind m (λ x, k))
  (at level 10, x name, m at level 100, k at level 200).
Notation "'do' m 'then' k" := (bind m (λ _, k))
  (at level 10, m at level 100, k at level 200).

Fixpoint forEach {A} (l : list A) (f : A → M unit) : M unit :=
  match l with
  | [] => ret tt
  | a :: l' => do f a then forEach l' f
  end.

Section Relay.

(** The environment of the process. *)
Variable Getenv : string → string.
(** The wall clock: the reading returned by the k-th call of
    [time.Now]. *)
Variable clock : nat → Time.
(** The broker behind the HTTP client: the outcome of a publish request
    given the requests made before it. *)
Variable broker : list PublishRequest → PublishRequest → HttpOutcome.
(** [token.SignedString] of the JWT library. *)
Variable SignedString :
  SigningMethod → gmap string ClaimValue → string → string + string.
(** [c.ShouldBindJSON] on a request body, for the two request types. *)
Variable bindTokenRequest : string → option TokenRequest.
Variable bindSendMessageRequest : string → option SendMessageRequest.

Definition getEnv (key defaultValue : string) : string :=
  let value := Getenv key in
  if negb (String.eqb value "") then value else defaultValue.

Definition centrifugoConfig : CentrifugoConfig := {|
  URL := getEnv "CENTRIFUGO_URL" "http://localhost:8000";
  APIKey := getEnv "CENTRIFUGO_API_KEY" "api_key";
  TokenHMACSecretKey :=
    getEnv "CENTRIFUGO_TOKEN_HMAC_SECRET_KEY" "token_hmac_secret_key"
|}.

Definition timeNow : M Time := λ w,
  (clock (clockReads w),
   {| clockReads := S (clockReads w);
      attempts := attempts w;
      logged := logged w |}).

Definition logPrintf (e : LogEntry) : M unit := λ w,
  (tt,
   {| clockReads := clockReads w;
      attempts := attempts w;
      logged := logged w ++ [e] |}).

Definition generateToken (user : string) : M (string + Error) :=
  let* iat := timeNow in
  let* now := timeNow in
  let claims : gmap string ClaimValue :=
    <["sub" := ClaimStr user]>
    (<["iat" := ClaimInt (Unix iat)]>
    (<["exp" := ClaimInt (Unix (Add now (24 * Hour)%Z))]> ∅)) in
  match SignedString SigningMethodHS256 claims
          (TokenHMACSecretKey centrifugoConfig) with
  | inr err => ret (inr (ErrSign err))
  | inl tokenString => ret (inl tokenString)
  end.

Definition getToken (requestBody : string) : M Response :=
  match bindTokenRequest requestBody with
  | None => ret (JSON StatusBadRequest (H_error "Invalid request format"))
  | Some req =>
    if String.eqb (User req) "" then
      ret (JSON StatusBadRequest (H_error "User is required"))
    else
      let* r := generateToken (User req) in
      match r with
      | inr err =>
        do logPrintf (LogFailedToGenerateToken err) then
        ret (JSON StatusInternalServerError
                  (H_error "Failed to generate token"))
      | inl token => ret (JSON StatusOK (TokenResponse token))
      end
  end.

(** The error, if any, that [publishToCentrifugo] makes of an outcome. *)
Definition publishError (o : HttpOutcome) : option Error :=
  match o with
  | NewRequestFails cause => Some (ErrCreateRequest cause)
  | DoFails cause => Some (ErrSendRequest cause)
  | HttpResponse code respBody =>
    if negb (code =? StatusOK)%Z
    then Some (ErrCentrifugoAPI code respBody)
    else None
  end.

Definition publishToCentrifugo (channel : string) (data : Message)
  : M (option Error) := λ w,
  let publishReq := {| Channel := channel; Data := data |} in
  (publishError (broker (attempts w) publishReq),
   {| clockReads := clockReads w;
      attempts := attempts w ++ [publishReq];
      logged := logged w |}).

Definition topics : list string :=
  ["all"; "general"; "tech"; "random"; "announcements"].

Definition channelOf (topic : string) : string := "topic:" +:+ topic.

(** The body of the loop over [topics] in [sendMessage]. *)
Definition fanOutBody (message : Message) (topic : string) : M unit :=
  let channelName := channelOf topic in
  let* err := publishToCentrifugo channelName message in
  match err with
  | Some e => logPrintf (LogFailedToPublishTopic topic e)
  | None => ret tt
  end.

Definition sendMessage (requestBody : string) : M Response :=
  match bindSendMessageRequest requestBody with
  | None => ret (JSON StatusBadRequest (H_error "Invalid request format"))
  | Some req =>
    if String.eqb (reqTopic req) "" || String.eqb (reqContent req) ""
       || String.eqb (reqAuthor req) ""
    then ret (JSON StatusBadRequest
                   (H_error "Topic, content, and author are required"))
    else
      let* t_id := timeNow in
      let* t_stamp := timeNow in
      let message := {|
        ID := pretty (UnixNano t_id);
        Topic := reqTopic req;
        Content := reqContent req;
        Author := reqAuthor req;
        Timestamp := t_stamp
      |} in
      if String.eqb (reqTopic req) "all" then
        do forEach topics (fanOutBody message) then
        ret (JSON StatusOK (H_success true message))
      else
        let channelName := channelOf (reqTopic req) in
        let* err := publishToCentrifugo channelName message in
        match err with
        | Some e =>
          do logPrintf (LogFailedToPublishCentrifugo e) then
          ret (JSON StatusInternalServerError
                    (H_error "Failed to send message"))
        | None =>
          let allChannelName := "topic:all" in
          let* err := publishToCentrifugo allChannelName message in
          do match err with
             | Some e => logPrintf (LogFailedToPublishAll e)
             | None => ret tt
             end then
          ret (JSON StatusOK (H_success true message))
        end
  end.

(** The request [publishToCentrifugo] makes for the channel of [topic]
    when it carries [msg]. *)
Definition publishRequestFor (msg : Message) (topic : string)
  : PublishRequest :=
  {| Channel := channelOf topic; Data := msg |}.

(** The message [sendMessage] builds for a request in world [w]. *)
Definition messageOf (req : SendMessageRequest) (w : World) : Message := {|
  ID := pretty (UnixNano (clock (clockReads w)));
  Topic := reqTopic req;
  Content := reqContent req;
  Author := reqAuthor req;
  Timestamp := clock (S (clockReads w))
|}.

End Relay.

(** *** One concrete process, for running the handlers *)

Module Sample.

Definition Getenv (key : string) : string :=
  if String.eqb key "CENTRIFUGO_TOKEN_HMAC_SECRET_KEY" then "s3cret" else "".

(** A clock that advances 0.6 s between two readings. *)
Definition clock (k : nat) : Time :=
  (1700000000 * Second + Z.of_nat k * 600000000)%Z.

(** A broker that accepts the first request it sees and answers 503 to
    every later one. *)
Definition broker (before : list PublishRequest) (r : PublishRequest)
  : HttpOutcome :=
  match before with
  | [] => HttpResponse 200 "{}"
  | _ => HttpResponse 503 "unavailable"
  end.

(** A broker that is unreachable. *)
Definition deadBroker (before : list PublishRequest) (r : PublishRequest)
  : HttpOutcome := DoFails "connection refused".

(** A signer that refuses the empty key. *)
Definition SignedString (m : SigningMethod) (claims : gmap string ClaimValue)
    (key : string) : string + string :=
  if String.eqb key "" then inr "key is empty"
  else inl ("signed:" +:+ key).

Definition general : SendMessageRequest :=
  {| reqTopic := "general"; reqContent := "hi"; reqAuthor := "alice" |}.
Definition all : SendMessageRequest :=
  {| reqTopic := "all"; reqContent := "hi"; reqAuthor := "bob" |}.
Definition blank : SendMessageRequest :=
  {| reqTopic := "general"; reqContent := ""; reqAuthor := "bob" |}.

(** Bodies are recognised by name instead of being parsed. *)
Definition bindTokenRequest (requestBody : string) : option TokenRequest :=
  if String.eqb requestBody "alice" then Some {| User := "alice" |}
  else if String.eqb requestBody "nobody" then Some {| User := "" |}
  else None.

Definition bindSendMessageRequest (requestBody : string)
  : option SendMessageRequest :=
  if String.eqb requestBody "general" then Some general
  else if String.eqb requestBody "all" then Some all
  else if String.eqb requestBody "blank" then Some blank
  else None.

Definition start : World :=
  {| clockReads := 0; attempts := []; logged := [] |}.

End Sample.

End Server.

(** ** The page script of the client (Svelte / TypeScript) *)

Module Client.

Definition API_BASE : string := "http://localhost:8080".
Definition CENTRIFUGO_URL : string :=
  "ws://localhost:8000/connection/websocket".

Record Message := {
  id : string;
  topic : string;
  content : string;
  author : string;
  timestamp : string
}.

(** *** Objects of the centrifuge library

    Objects live in two stores and are named by their position there, so
    that two variables holding the same object hold the same number. *)

(** A [Centrifuge] object: the endpoint and the [token] option it was
    constructed with ([None] for [new Centrifuge(CENTRIFUGO_URL)]), and
    which of the two sets of listeners of [getTokenAndConnect] it got. *)
Record Centrifuge := {
  endpoint : string;
  token : option string;
  anonymous : bool
}.

(** The state the library keeps for a client: [client.state]. *)
Inductive ClientState :=
| StateDisconnected
| StateConnecting
| StateConnected.

(** A subscription object made by [client.newSubscription(channel)]: the
    topics captured by its 'publication' listeners, in registration
    order, and whether [subscribe()] or [unsubscribe()] was called last. *)
Record Subscription := {
  channel : string;
  client : nat;
  publicationListeners : list string;
  subscribed : bool
}.

(** Calls that leave the script, in the order they are made. *)
Inductive Effect :=
| FetchTopics
| FetchToken (user : string)
| NewCentrifuge (c : nat)
| Connect (c : nat)
| Disconnect (c : nat)
| NewSubscription (c : nat) (h : nat)
| Subscribe (h : nat)
| Unsubscribe (h : nat)
| SetTimeout (ms : nat)
| ScrollToBottom
| ConsoleLog (text : string)
| ConsoleError (text : string).

(** The body of a token response, as far as the script reads it. *)
Record TokenData := { data_token : option string }.

(** How a [fetch] followed by [response.json()] can end: [fetch] rejects,
    or there is a response with its [ok] flag and a body that parses
    ([Some]) or not ([None]). *)
Inductive FetchResult :=
| Rejected
| Responded (ok : bool) (data : option TokenData).

(** *** The variables of the script and what surrounds them *)

Record State := mkState {
  centrifuge : option nat;
  connected : bool;
  currentTopic : string;
  messages : list Message;
  username : string;
  previousUsername : string;
  subscription : option nat;
  subscriptions : gmap string nat;
  availableTopics : list string;
  (* the library's objects *)
  clients : list Centrifuge;
  clientStates : gmap nat ClientState;
  handles : list Subscription;
  (* what the event loop holds *)
  timers : list nat;
  pendingTopicsFetch : bool;
  pendingTokenFetches : nat;
  effects : list Effect
}.

Definition set_centrifuge (v : option nat) (s : State) : State :=
  mkState v (connected s) (currentTopic s) (messages s) (username s)
    (previousUsername s) (subscription s) (subscriptions s)
    (availableTopics s) (clients s) (clientStates s) (handles s)
    (timers s) (pendingTopicsFetch s) (pendingTokenFetches s) (effects s).

Definition set_connected (v : bool) (s : State) : State :=
  mkState (centrifuge s) v (currentTopic s) (messages s) (username s)
    (previousUsername s) (subscription s) (subscriptions s)
    (availableTopics s) (clients s) (clientStates s) (handles s)
    (timers s) (pendingTopicsFetch s) (pendingTokenFetches s) (effects s).

Definition set_currentTopic (v : string) (s : State) : State :=
  mkState (centrifuge s) (connected s) v (messages s) (username s)
    (previousUsername s) (subscription s) (subscriptions s)
    (availableTopics s) (clients s) (clientStates s) (handles s)
    (timers s) (pendingTopicsFetch s) (pendingTokenFetches s) (effects s).

Definition set_messages (v : list Message) (s : State) : State :=
  mkState (centrifuge s) (connected s) (currentTopic s) v (username s)
    (previousUsername s) (subscription s) (subscriptions s)
    (availableTopics s) (clients s) (clientStates s) (handles s)
    (timers s) (pendingTopicsFetch s) (pendingTokenFetches s) (effects s).

Definition set_username (v : string) (s : State) : State :=
  mkState (centrifuge s) (connected s) (currentTopic s) (messages s) v
    (previousUsername s) (subscription s) (subscriptions s)
    (availableTopics s) (clients s) (clientStates s) (handles s)
    (timers s) (pendingTopicsFetch s) (pendingTokenFetches s) (effects s).

Definition set_previousUsername (v : string) (s : State) : State :=
  mkState (centrifuge s) (connected s) (currentTopic s) (messages s)
    (username s) v (subscription s) (subscriptions s) (availableTopics s)
    (clients s) (clientStates s) (handles s) (timers s)
    (pendingTopicsFetch s) (pendingTokenFetches s) (effects s).

Definition set_subscription (v : option nat) (s : State) : State :=
  mkState (centrifuge s) (connected s) (currentTopic s) (messages s)
    (username s) (previousUsername s) v (subscriptions s)
    (availableTopics s) (clients s) (clientStates s) (handles s)
    (timers s) (pendingTopicsFetch s) (pendingTokenFetches s) (effects s).

Definition set_subscriptions (v : gmap string nat) (s : State) : State :=
  mkState (centrifuge s) (connected s) (currentTopic s) (messages s)
    (username s) (previousUsername s) (subscription s) v
    (availableTopics s) (clients s) (clientStates s) (handles s)
    (timers s) (pendingTopicsFetch s) (pendingTokenFetches s) (effects s).

Definition set_availableTopics (v : list string) (s : State) : State :=
  mkState (centrifuge s) (connected s) (currentTopic s) (messages s)
    (username s) (previousUsername s) (subscription s) (subscriptions s) v
    (clients s) (clientStates s) (handles s) (timers s)
    (pendingTopicsFetch s) (pendingTokenFetches s) (effects s).

Definition set_clients (v : list Centrifuge) (s : State) : State :=
  mkState (centrifuge s) (connected s) (currentTopic s) (messages s)
    (username s) (previousUsername s) (subscription s) (subscriptions s)
    (availableTopics s) v (clientStates s) (handles s) (timers s)
    (pendingTopicsFetch s) (pendingTokenFetches s) (effects s).

Definition set_clientStates (v : gmap nat ClientState) (s : State)
  : State :=
  mkState (centrifuge s) (connected s) (currentTopic s) (messages s)
    (username s) (previousUsername s) (subscription s) (subscriptions s)
    (availableTopics s) (clients s) v (handles s) (timers s)
    (pendingTopicsFetch s) (pendingTokenFetches s) (effects s).

Definition set_handles (v : list Subscription) (s : State) : State :=
  mkState (centrifuge s) (connected s) (currentTopic s) (messages s)
    (username s) (previousUsername s) (subscription s) (subscriptions s)
    (availableTopics s) (clients s) (clientStates s) v (timers s)
    (pendingTopicsFetch s) (pendingTokenFetches s) (effects s).

Definition set_timers (v : list nat) (s : State) : State :=
  mkState (centrifuge s) (connected s) (currentTopic s) (messages s)
    (username s) (previousUsername s) (subscription s) (subscriptions s)
    (availableTopics s) (clients s) (clientStates s) (handles s) v
    (pendingTopicsFetch s) (pendingTokenFetches s) (effects s).

Definition set_pendingTokenFetches (v : nat) (s : State) : State :=
  mkState (centrifuge s) (connected s) (currentTopic s) (messages s)
    (username s) (previousUsername s) (subscription s) (subscriptions s)
    (availableTopics s) (clients s) (clientStates s) (handles s)
    (timers s) (pendingTopicsFetch s) v (effects s).

Definition set_pendingTopicsFetch (v : bool) (s : State) : State :=
  mkState (centrifuge s) (connected s) (currentTopic s) (messages s)
    (username s) (previousUsername s) (subscription s) (subscriptions s)
    (availableTopics s) (clients s) (clientStates s) (handles s)
    (timers s) v (pendingTokenFetches s) (effects s).

Definition emit (e : list Effect) (s : State) : State :=
  mkState (centrifuge s) (connected s) (currentTopic s) (messages s)
    (username s) (previousUsername s) (subscription s) (subscriptions s)
    (availableTopics s) (clients s) (clientStates s) (handles s)
    (timers s) (pendingTopicsFetch s) (pendingTokenFetches s)
    (effects s ++ e).

(** The script's variables as their initialisers leave them, with the
    topics request of [onMount] under way. *)
Definition init : State := {|
  centrifuge := None;
  connected := false;
  currentTopic := "all";
  messages := [];
  username := "";
  previousUsername := "";
  subscription := None;
  subscriptions := ∅;
  availableTopics := [];
  clients := [];
  clientStates := ∅;
  handles := [];
  timers := [];
  pendingTopicsFetch := true;
  pendingTokenFetches := 0;
  effects := [FetchTopics]
|}.

(** *** Library calls *)

Definition set_subscribed (v : bool) (o : Subscription) : Subscription := {|
  channel := channel o;
  client := client o;
  publicationListeners := publicationListeners o;
  subscribed := v
|}.

Definition add_listener (t : string) (o : Subscription) : Subscription := {|
  channel := channel o;
  client := client o;
  publicationListeners := publicationListeners o ++ [t];
  subscribed := subscribed o
|}.

(** [h.subscribe()] *)
Definition subscribe (h : nat) (s : State) : State :=
  emit [Subscribe h]
    (set_handles (alter (set_subscribed true) h (handles s)) s).

(** [h.unsubscribe()] *)
Definition unsubscribe (h : nat) (s : State) : State :=
  emit [Unsubscribe h]
    (set_handles (alter (set_subscribed false) h (handles s)) s).

(** [c.newSubscription(channelName)]: a new object, returned by name. *)
Definition newSubscription (c : nat) (channelName : string) (s : State)
  : nat * State :=
  let h := length (handles s) in
  (h, emit [NewSubscription c h]
        (set_handles
           (handles s ++
            [{| channel := channelName; client := c;
                publicationListeners := []; subscribed := false |}]) s)).

(** [h.on('publication', ctx => ...)] with the listener of [joinTopic],
    which captures [topic]. *)
Definition on_publication (h : nat) (t : string) (s : State) : State :=
  set_handles (alter (add_listener t) h (handles s)) s.

(** [new Centrifuge(...)] followed by the three [on] registrations; a
    new client is in state 'disconnected'. *)
Definition newCentrifuge (tok : option string) (anon : bool) (s : State)
  : nat * State :=
  let c := length (clients s) in
  (c, emit [NewCentrifuge c]
        (set_clientStates (<[c := StateDisconnected]> (clientStates s))
           (set_clients
              (clients s ++
               [{| endpoint := CENTRIFUGO_URL; token := tok;
                   anonymous := anon |}]) s))).

Definition set_clientState (c : nat) (v : ClientState) (s : State) : State :=
  set_clientStates (<[c := v]> (clientStates s)) s.

(** Whether client [c] is connecting or connected. *)
Definition live (s : State) (c : nat) : bool :=
  match clientStates s !! c with
  | Some StateConnecting | Some StateConnected => true
  | Some StateDisconnected | None => false
  end.

(** [c.connect()]: a disconnected client starts connecting; the script
    has no listener for the 'connecting' the library emits then. *)
Definition connect (c : nat) (s : State) : State :=
  let s := emit [Connect c] s in
  if live s c then s else set_clientState c StateConnecting s.

(** *** The functions of the script *)

Definition channelOf (t : string) : string := "topic:" +:+ t.

Definition joinTopic (t : string) (s : State) : State :=
  let s := match subscription s with
           | Some h => unsubscribe h s
           | None => s
           end in
  let s := set_messages [] s in
  let s := set_currentTopic t s in
  match centrifuge s with
  | Some c =>
    if connected s then
      let channelName := channelOf t in
      let s :=
        match subscriptions s !! channelName with
        | Some h => set_subscription (Some h) s
        | None =>
          let '(h, s) := newSubscription c channelName s in
          let s := set_subscription (Some h) s in
          let s := set_subscriptions (<[channelName := h]> (subscriptions s)) s in
          on_publication h t s
        end in
      match subscription s with
      | Some h => subscribe h s
      | None => s
      end
    else s
  | None => s
  end.

(** The part of [getTokenAndConnect] up to the [await] of [fetch]. *)
Definition getTokenAndConnect (s : State) : State :=
  emit [FetchToken (username s)]
    (set_pendingTokenFetches (S (pendingTokenFetches s)) s).

(** The rest of [getTokenAndConnect], once the request has settled. *)
Definition getTokenAndConnect_resume (r : FetchResult) (s : State) : State :=
  match r with
  | Responded true (Some data) =>
    let '(c, s) := newCentrifuge (data_token data) false s in
    let s := set_centrifuge (Some c) s in
    connect c s
  | _ =>
    let s := emit [ConsoleError "Failed to get token or connect:";
                   ConsoleLog "Falling back to anonymous connection..."] s in
    let '(c, s) := newCentrifuge None true s in
    let s := set_centrifuge (Some c) s in
    connect c s
  end.

Definition initializeCentrifugo (s : State) : State := getTokenAndConnect s.

(** The 'disconnected' listener of a client. *)
Definition onDisconnected (s : State) : State :=
  emit [ConsoleLog "Disconnected from Centrifugo"] (set_connected false s).

(** [c.disconnect()]: a client that is connecting or connected becomes
    disconnected and the library emits 'disconnected' before the call
    returns, so the listener runs inside it; on a disconnected client
    the call does nothing. *)
Definition disconnect (c : nat) (s : State) : State :=
  let s := emit [Disconnect c] s in
  if live s c
  then onDisconnected (set_clientState c StateDisconnected s)
  else s.

Definition reconnectWithNewToken (s : State) : State :=
  let s := match centrifuge s with
           | Some c => disconnect c s
           | None => s
           end in
  emit [SetTimeout 500] (set_timers (timers s ++ [500]) s).

(** The reactive statement on [username] and [previousUsername]. *)
Definition usernameReaction (s : State) : State :=
  if negb (String.eqb (username s) "")
     && negb (String.eqb (username s) (previousUsername s))
     && negb (String.eqb (previousUsername s) "")
  then
    let s := set_previousUsername (username s) s in
    reconnectWithNewToken s
  else if String.eqb (previousUsername s) ""
  then set_previousUsername (username s) s
  else s.

(** The listener a 'publication' listener of [joinTopic] runs, for the
    topic [t] it captured. *)
Definition publicationListener (t : string) (message : Message) (s : State)
  : State :=
  if String.eqb (currentTopic s) t
  then emit [ScrollToBottom] (set_messages (messages s ++ [message]) s)
  else s.

(** The 'connected' listener of a client. *)
Definition onConnected (anon : bool) (s : State) : State :=
  let s := set_connected true s in
  let s := emit [ConsoleLog (if anon
                             then "Connected to Centrifugo (anonymous)"
                             else "Connected to Centrifugo")] s in
  joinTopic (currentTopic s) s.

(** The continuation of [onMount] after the topics request: [loaded] is
    the list received ([None] when the request failed), [n] the number
    drawn for the default user name. *)
Definition onMount_resume (loaded : option (list string)) (n : N) (s : State)
  : State :=
  let s := match loaded with
           | Some ts => set_availableTopics ts s
           | None =>
             emit [ConsoleError "Failed to load topics:"]
               (set_availableTopics ["all"; "general"; "tech"; "random"] s)
           end in
  let s := set_username ("User" +:+ pretty n) s in
  let s := initializeCentrifugo s in
  usernameReaction s.

(** *** The event loop *)

Inductive Event :=
| EvTopicsSettled (loaded : option (list string)) (n : N)
| EvUsernameInput (u : string)
| EvJoinTopic (t : string)
| EvTimer
| EvTokenSettled (r : FetchResult)
| EvConnected (c : nat)
| EvDisconnected (c : nat)
| EvPublication (h : nat) (message : Message).

(** One turn of the event loop.  An event for which nothing is
    registered or pending leaves the state as it is.  The library emits
    'connected' for a client that is connecting (also again, after it
    lost its transport and found it back), and 'disconnected' on its
    own when it gives a live client up; the 'disconnected' that answers
    [disconnect()] is part of that call. *)
Definition step (s : State) (e : Event) : State :=
  match e with
  | EvTopicsSettled loaded n =>
    if pendingTopicsFetch s
    then onMount_resume loaded n (set_pendingTopicsFetch false s)
    else s
  | EvUsernameInput u => usernameReaction (set_username u s)
  | EvJoinTopic t => joinTopic t s
  | EvTimer =>
    match timers s with
    | _ :: rest => initializeCentrifugo (set_timers rest s)
    | [] => s
    end
  | EvTokenSettled r =>
    match pendingTokenFetches s with
    | S n => getTokenAndConnect_resume r (set_pendingTokenFetches n s)
    | O => s
    end
  | EvConnected c =>
    match clients s !! c with
    | Some o =>
      if live s c
      then onConnected (anonymous o) (set_clientState c StateConnected s)
      else s
    | None => s
    end
  | EvDisconnected c =>
    match clients s !! c with
    | Some _ =>
      if live s c
      then onDisconnected (set_clientState c StateDisconnected s)
      else s
    | None => s
    end
  | EvPublication h message =>
    match handles s !! h with
    | Some o =>
      foldl (λ s t, publicationListener t message s) s
            (publicationListeners o)
    | None => s
    end
  end.

Definition run (evs : list Event) (s : State) : State := foldl step s evs.

(** *** What the registry invariant is stated over *)

(** The channel and the captured listener topics of every subscription
    object, by position; [subscribe] and [unsubscribe] leave it alone. *)
Definition wire (o : Subscription) : string * list string :=
  (channel o, publicationListeners o).

Definition wiring (s : State) : list (string * list string) :=
  wire <$> handles s.

(** The registry [subscriptions] and the store of subscription objects
    describe each other: an entry for a channel names an object of that
    channel, every object is entered under its channel, and every object
    carries the one listener [joinTopic] gave it, for the topic its
    channel is named after. *)
Definition registry_ok (s : State) : Prop :=
  (∀ ch h, subscriptions s !! ch = Some h
           ↔ ∃ ls, wiring s !! h = Some (ch, ls))
  ∧ Forall (λ w, ∃ t, w = (channelOf t, [t])) (wiring s).

(** How one turn can change registry and store: not at all, or by one
    new object entered under a channel that had no entry. *)
Definition grows (s s' : State) : Prop :=
  (subscriptions s' = subscriptions s ∧ wiring s' = wiring s)
  ∨ ∃ t, subscriptions s !! channelOf t = None
         ∧ subscriptions s' = <[channelOf t := length (wiring s)]> (subscriptions s)
         ∧ wiring s' = wiring s ++ [(channelOf t, [t])].

(** Whether subscription object [h] is the one of the channel of the
    current topic. *)
Definition onCurrentChannel (s : State) (h : nat) : bool :=
  match handles s !! h with
  | Some o => bool_decide (channel o = channelOf (currentTopic s))
  | None => false
  end.

(** A sequence of deliveries, each on a subscription object. *)
Definition deliver (ds : list (nat * Message)) : list Event :=
  (λ d, EvPublication d.1 d.2) <$> ds.

(** A run that connects as one user and then changes the user name. *)
Definition tokenResponse (t : string) : FetchResult :=
  Responded true (Some {| data_token := Some t |}).

Definition firstConnect : list Event :=
  [EvTopicsSettled (Some ["all"; "general"; "tech"; "random"; "announcements"])
                   7%N;
   EvTokenSettled (tokenResponse "t0");
   EvConnected 0].

Definition renameAndReconnect : list Event :=
  firstConnect ++
  [EvUsernameInput "bob";
   EvTimer;
   EvTokenSettled (tokenResponse "t1");
   EvConnected 1].

End Client.

(** ** The rest of the relay's handlers *)

Module Catalog.
Import Server.

(** [getTopics]: the catalog shown to clients. *)
Definition getTopics : M Response :=
  let topics := ["all"; "general"; "tech"; "random"; "announcements"] in
  ret (JSON StatusOK (H_topics topics)).

(** The channels of a list of publish requests. *)
Definition channels (reqs : list PublishRequest) : list string :=
  Channel <$> reqs.

(** Position and topic of every entry of a topic list. *)
Definition numbered (ts : list string) : list (nat * string) :=
  imap (λ i t, (i, t)) ts.

(** A signer that shows the lifetime of what it is given to sign: the
    token is exp - iat in decimal. *)
Definition lifetimeSigner (m : SigningMethod)
    (claims : gmap string ClaimValue) (key : string) : string + string :=
  match claims !! "iat", claims !! "exp" with
  | Some (ClaimInt iat), Some (ClaimInt exp) => inl (pretty (exp - iat)%Z)
  | _, _ => inr "iat or exp is missing"
  end.

(** A world in which the clock has been read once. *)
Definition afterOneReading : World :=
  {| clockReads := 1; attempts := []; logged := [] |}.

(** What the loop of [sendMessage] logs for the topic at position [i]
    of the list [l] it runs over, when [before] holds the publish calls
    made before the loop: the error, if any, of the publish for that
    topic, which the broker sees after the publishes for the topics
    before it. *)
Definition loggedFor
    (broker : list PublishRequest → PublishRequest → HttpOutcome)
    (message : Message) (before : list PublishRequest)
    (l : list string) (it : nat * string) : option LogEntry :=
  LogFailedToPublishTopic it.2
  <$> publishError
        (broker (before ++ take it.1 (publishRequestFor message <$> l))
                (publishRequestFor message it.2)).

End Catalog.

(** ** The rest of the page script: sending, key handling, teardown *)

Module Page.
Import Client.

(** [Object.values(subscriptions)] lists the entries in the order they
    were entered.  [joinTopic] enters every subscription object when it
    makes it, and objects are numbered in the order they are made, so
    that order is the order of the numbers. *)
Definition objectValues (m : gmap string nat) : list nat :=
  merge_sort Nat.le (map_to_list m).*2.

(** The callback given to [onDestroy]. *)
Definition onDestroy (s : State) : State :=
  let s := foldl (λ s sub, unsubscribe sub s) s
                 (objectValues (subscriptions s)) in
  match centrifuge s with
  | Some c => disconnect c s
  | None => s
  end.

(** The JSON body of the request to /api/messages. *)
Record PostBody := {
  post_topic : string;
  post_content : string;
  post_author : string
}.

(** What [sendMessage] does to the outside, in order. *)
Inductive Outside :=
| PostMessages (b : PostBody)
| Publish (sub : nat) (message : Message)
| ConsoleError (text : string)
| Alert (text : string).

(** The script's variables together with the draft in the message
    field, the requests of [sendMessage] that have not settled, and
    what [sendMessage] did to the outside. *)
Record Page := mkPage {
  script : State;
  newMessage : string;
  pendingPosts : nat;
  pendingPublishes : nat;
  outside : list Outside
}.

Definition start : Page := {|
  script := init;
  newMessage := "";
  pendingPosts := 0;
  pendingPublishes := 0;
  outside := []
|}.

(** How the request to /api/messages ends, as far as the script looks:
    [fetch] rejects, or there is a response with its [ok] flag. *)
Inductive PostResult :=
| PostRejected
| PostResponded (ok : bool).

(** What the page takes from its surroundings when it builds the
    message of the fallback: [Date.now()], the nine characters cut from
    [Math.random().toString(36)], and [new Date().toISOString()]. *)
Record Ambient := {
  dateNow : N;
  randomSuffix : string;
  isoString : string
}.

Section Sending.

(** [String.prototype.trim]. *)
Variable trim : string → string.

(** [sendMessage] up to the [await] of [fetch]. *)
Definition sendMessage (p : Page) : Page :=
  if String.eqb (trim (newMessage p)) ""
     || String.eqb (trim (username (script p))) ""
     || negb (connected (script p))
  then p
  else
    mkPage (script p) (newMessage p) (S (pendingPosts p))
      (pendingPublishes p)
      (outside p ++
       [PostMessages {| post_topic := currentTopic (script p);
                        post_content := trim (newMessage p);
                        post_author := trim (username (script p)) |}]).

(** [sendMessage] from the settling of [fetch] to its end or to the
    [await] of [subscription.publish]. *)
Definition sendMessage_afterPost (r : PostResult) (a : Ambient) (p : Page)
  : Page :=
  match r with
  | PostResponded true =>
    mkPage (script p) "" (pendingPosts p) (pendingPublishes p) (outside p)
  | _ =>
    let out := outside p ++ [ConsoleError "Failed to send message via API:"] in
    let message := {|
      id := pretty (dateNow a) +:+ "-" +:+ randomSuffix a;
      topic := currentTopic (script p);
      content := trim (newMessage p);
      author := trim (username (script p));
      timestamp := isoString a
    |} in
    match subscription (script p) with
    | Some sub =>
      mkPage (script p) (newMessage p) (pendingPosts p)
        (S (pendingPublishes p)) (out ++ [Publish sub message])
    | None =>
      mkPage (script p) (newMessage p) (pendingPosts p) (pendingPublishes p)
        (out ++
         [ConsoleError "Failed to send message via WebSocket fallback:";
          Alert "Failed to send message. Please check your connection."])
    end
  end.

(** [sendMessage] from the settling of [subscription.publish]. *)
Definition sendMessage_afterPublish (resolved : bool) (p : Page) : Page :=
  if resolved
  then mkPage (script p) "" (pendingPosts p) (pendingPublishes p) (outside p)
  else
    mkPage (script p) (newMessage p) (pendingPosts p) (pendingPublishes p)
      (outside p ++
       [ConsoleError "Failed to send message via WebSocket fallback:";
        Alert "Failed to send message. Please check your connection."]).

Definition handleKeyPress (key : string) (shiftKey : bool) (p : Page) : Page :=
  if String.eqb key "Enter" && negb shiftKey
  then sendMessage p
  else p.

Inductive PageEvent :=
| PgScript (e : Event)
| PgType (text : string)
| PgKey (key : string) (shiftKey : bool)
| PgClickSend
| PgPostSettled (r : PostResult) (a : Ambient)
| PgPublishSettled (resolved : bool)
| PgDestroy.

(** One turn of the event loop of the whole page. *)
Definition pageStep (p : Page) (e : PageEvent) : Page :=
  match e with
  | PgScript e =>
    mkPage (step (script p) e) (newMessage p) (pendingPosts p)
      (pendingPublishes p) (outside p)
  | PgType text =>
    mkPage (script p) text (pendingPosts p) (pendingPublishes p) (outside p)
  | PgKey key shiftKey => handleKeyPress key shiftKey p
  | PgClickSend => sendMessage p
  | PgPostSettled r a =>
    match pendingPosts p with
    | S n =>
      sendMessage_afterPost r a
        (mkPage (script p) (newMessage p) n (pendingPublishes p) (outside p))
    | O => p
    end
  | PgPublishSettled resolved =>
    match pendingPublishes p with
    | S n =>
      sendMessage_afterPublish resolved
        (mkPage (script p) (newMessage p) (pendingPosts p) n (outside p))
    | O => p
    end
  | PgDestroy =>
    mkPage (onDestroy (script p)) (newMessage p) (pendingPosts p)
      (pendingPublishes p) (outside p)
  end.

Definition pageRun (evs : list PageEvent) (p : Page) : Page :=
  foldl pageStep p evs.

(** The bodies the page has posted so far. *)
Definition posted (p : Page) : list PostBody :=
  omap (λ o, match o with PostMessages b => Some b | _ => None end)
       (outside p).

End Sending.

(** The server's view of a posted body. *)
Definition asRequest (b : PostBody) : Server.SendMessageRequest := {|
  Server.reqTopic := post_topic b;
  Server.reqContent := post_content b;
  Server.reqAuthor := post_author b
|}.

(** *** What the invariants of the script are stated over *)

(** The messages a run of events delivers, in order. *)
Definition delivered (evs : list Event) : list Message :=
  omap (λ e, match e with EvPublication _ m => Some m | _ => None end) evs.

Definition isFetchToken (e : Effect) : bool :=
  match e with FetchToken _ => true | _ => false end.

(** The number of token requests among the effects. *)
Definition tokenRequests (es : list Effect) : nat :=
  length (List.filter isFetchToken es).

Definition isSetTimeout (e : Effect) : bool :=
  match e with SetTimeout _ => true | _ => false end.

(** The number of timers set among the effects. *)
Definition timeoutsSet (es : list Effect) : nat :=
  length (List.filter isSetTimeout es).

(** Timers and token requests are in step: [onMount] makes one token
    request once its topics request has settled, and every other token
    request comes from a timer that has fired. *)
Definition timers_account (s : State) : Prop :=
  timeoutsSet (effects s) + (if pendingTopicsFetch s then 0 else 1)
  = length (timers s) + tokenRequests (effects s).

(** What a subscription object is made with and keeps. *)
Definition made (o : Subscription) : string * nat * list string :=
  (channel o, client o, publicationListeners o).

(** At most the current subscription object is subscribed, and then it
    is the object of the channel of the current topic. *)
Definition one_subscribed (s : State) : Prop :=
  ∀ h o, handles s !! h = Some o → subscribed o = true →
         subscription s = Some h ∧ channel o = channelOf (currentTopic s).

(** The current client is the one made last. *)
Definition newest_client (s : State) : Prop :=
  match centrifuge s with
  | Some c => length (clients s) = S c
  | None => clients s = []
  end.

(** Parts of the state a function may leave alone. *)
Definition same_session (s s' : State) : Prop :=
  centrifuge s' = centrifuge s
  ∧ clients s' = clients s
  ∧ pendingTokenFetches s' = pendingTokenFetches s
  ∧ tokenRequests (effects s') = tokenRequests (effects s).

Definition same_room (s s' : State) : Prop :=
  currentTopic s' = currentTopic s
  ∧ subscription s' = subscription s
  ∧ handles s' = handles s.

Definition same_identity (s s' : State) : Prop :=
  username s' = username s
  ∧ previousUsername s' = previousUsername s.

(** A trim that removes spaces at both ends, for running the page. *)
Fixpoint dropSpaces (s : string) : string :=
  match s with
  | String (Ascii.Ascii false false false false false true false false) s' =>
    dropSpaces s'
  | _ => s
  end.

Definition sampleTrim (s : string) : string :=
  String.rev (dropSpaces (String.rev (dropSpaces s))).

(** A page that has connected as "User7" and holds a draft, and the
    same page after the send button was pressed. *)
Definition draftedPage : Page :=
  pageRun sampleTrim ((PgScript <$> firstConnect) ++ [PgType " hi "]) start.

Definition sentPage : Page := pageStep sampleTrim draftedPage PgClickSend.

Definition sampleAmbient : Ambient :=
  {| dateNow := 1700000000000; randomSuffix := "k3j9x0q2a";
     isoString := "2023-11-14T22:13:20.000Z" |}.

(** What follows [firstConnect] in [renameAndReconnect]. *)
Definition reconnectAsBob : list Event :=
  [EvUsernameInput "bob";
   EvTimer;
   EvTokenSettled (tokenResponse "t1");
   EvConnected 1].

End Page.

(** ** Properties of the relay server *)

Section RelayProperties.
Import Server.

Variable Getenv : string → string.
Variable clock : nat → Time.
Variable broker : list PublishRequest → PublishRequest → HttpOutcome.
Variable SignedString :
  SigningMethod → gmap string ClaimValue → string → string + string.
Variable bindTokenRequest : string → option TokenRequest.
Variable bindSendMessageRequest : string → option SendMessageRequest.

Abbreviation sendMessage :=
  (sendMessage clock broker bindSendMessageRequest).
Abbreviation getToken :=
  (getToken Getenv clock SignedString bindTokenRequest).
Abbreviation fanOutBody := (fanOutBody broker).

Lemma String_eqb_false (a b : string) : a ≠ b → String.eqb a b = false.
Proof. intros H. by apply String.eqb_neq. Qed.

Lemma fanOutBody_world msg topic w :
  clockReads (fanOutBody msg topic w).2 = clockReads w ∧
  attempts (fanOutBody msg topic w).2
  = attempts w ++ [publishRequestFor msg topic].
Proof.
  unfold Server.fanOutBody, bind, publishToCentrifugo. simpl.
  destruct (publishError _); simpl; auto.
Qed.

Lemma forEach_fanOut_world msg (l : list string) : ∀ w,
  clockReads (forEach l (fanOutBody msg) w).2 = clockReads w ∧
  attempts (forEach l (fanOutBody msg) w).2
  = attempts w ++ map (publishRequestFor msg) l.
Proof.
  induction l as [|t l IH]; intros w; simpl.
  - by rewrite app_nil_r.
  - unfold bind.
    destruct (fanOutBody msg t w) as [u w1] eqn:E.
    destruct (IH w1) as [Hc Ha].
    pose proof (fanOutBody_world msg t w) as [Hc1 Ha1].
    rewrite E in Hc1, Ha1. simpl in Hc1, Ha1.
    rewrite Hc, Ha, Hc1, Ha1. split; [done|].
    by rewrite <- app_assoc.
Qed.

Lemma Unix_Add_24h (t : Time) :
  Unix (Add t (24 * Hour)%Z) = (Unix t + 86400)%Z.
Proof.
  unfold Unix, Add, Hour, Second.
  replace (t + 24 * (3600 * 1000000000))%Z
    with (t + 86400 * 1000000000)%Z by lia.
  by rewrite Z.div_add by lia.
Qed.

(** C1: a request for a topic other than "all", with topic, content and
    author non-empty, first publishes the message it builds to the
    channel of its topic.  When that publish gives an error the answer
    is 500 "Failed to send message" and no further publish is made.
    When it gives none, one more publish of the same message goes to
    "topic:all", and the answer is 200 with success = true and the
    message, whatever the outcome of that second publish. *)
Theorem C1_concrete_topic_routing (requestBody : string)
    (req : SendMessageRequest) (w : World) :
  bindSendMessageRequest requestBody = Some req →
  reqTopic req ≠ "" → reqContent req ≠ "" → reqAuthor req ≠ "" →
  reqTopic req ≠ "all" →
  let message := messageOf clock req w in
  let own := publishRequestFor message (reqTopic req) in
  let mirror := publishRequestFor message "all" in
  let '(resp, w') := sendMessage requestBody w in
  match publishError (broker (attempts w) own) with
  | Some e =>
    resp = JSON StatusInternalServerError (H_error "Failed to send message")
    ∧ attempts w' = attempts w ++ [own]
  | None =>
    resp = JSON StatusOK (H_success true message)
    ∧ attempts w' = attempts w ++ [own; mirror]
  end.
Proof.
  intros Hb Ht Hc Ha Hall.
  unfold Server.sendMessage. rewrite Hb.
  rewrite !String_eqb_false by done. simpl.
  unfold bind, timeNow, publishToCentrifugo, channelOf,
    messageOf, publishRequestFor. simpl.
  destruct (publishError _) as [e|]; simpl; [done|].
  destruct (publishError _) as [e|]; simpl;
    by rewrite <- app_assoc.
Qed.

(** C2: a request for topic "all" with content and author non-empty
    makes exactly five publish calls, one per entry of ["all";
    "general"; "tech"; "random"; "announcements"] and in that order,
    all with the same message, and is answered 200 with success = true
    whatever the broker returns for any of them. *)
Theorem C2_all_topic_fan_out (requestBody : string)
    (req : SendMessageRequest) (w : World) :
  bindSendMessageRequest requestBody = Some req →
  reqTopic req = "all" → reqContent req ≠ "" → reqAuthor req ≠ "" →
  let message := messageOf clock req w in
  let fanned :=
    map (publishRequestFor message)
        ["all"; "general"; "tech"; "random"; "announcements"] in
  (sendMessage requestBody w).1 = JSON StatusOK (H_success true message)
  ∧ attempts (sendMessage requestBody w).2 = attempts w ++ fanned
  ∧ length fanned = 5.
Proof.
  intros Hb Ht Hc Ha.
  unfold Server.sendMessage. rewrite Hb, Ht.
  rewrite !String_eqb_false by done.
  change (String.eqb "all" "") with false.
  change (String.eqb "all" "all") with true.
  unfold bind, timeNow, ret.
  cbn [orb clockReads attempts logged].
  set (message := {| ID := _ |}).
  set (w2 := {| clockReads := _ |}).
  pose proof (forEach_fanOut_world message topics w2) as [_ Hatt].
  destruct (forEach topics (fanOutBody message) w2) as [u w3].
  cbn [fst snd] in *. cbv beta iota. cbn [fst snd]. rewrite Hatt.
  subst message w2. unfold messageOf. rewrite Ht. done.
Qed.

(** C3: a request whose topic, content or author is the empty string
    is answered 400 "Topic, content, and author are required", and the
    world is left as it was: no publish call is made and no message is
    built. *)
Theorem C3_empty_field_rejected (requestBody : string)
    (req : SendMessageRequest) (w : World) :
  bindSendMessageRequest requestBody = Some req →
  reqTopic req = "" ∨ reqContent req = "" ∨ reqAuthor req = "" →
  sendMessage requestBody w
  = (JSON StatusBadRequest
          (H_error "Topic, content, and author are required"), w).
Proof.
  intros Hb Hempty.
  unfold Server.sendMessage. rewrite Hb.
  destruct Hempty as [-> | [-> | ->]]; simpl;
    rewrite ?orb_true_r; done.
Qed.

(** C10: a request body that does not bind to the request type is
    answered 400 "Invalid request format" (not the answer of the
    empty-field check), and the world is left as it was: no message is
    built and no publish call is made. *)
Theorem C10_malformed_body_rejected (requestBody : string) (w : World) :
  bindSendMessageRequest requestBody = None →
  sendMessage requestBody w
  = (JSON StatusBadRequest (H_error "Invalid request format"), w)
  ∧ (sendMessage requestBody w).1
    ≠ JSON StatusBadRequest
           (H_error "Topic, content, and author are required").
Proof.
  intros Hb. unfold Server.sendMessage. rewrite Hb. by split.
Qed.

(** C4 as it is worded does not hold: [generateToken] reads the clock
    once for iat and once more for exp, and when a second boundary lies
    between the two readings (here they are taken at 0.6 s and 1.2 s
    after a full second) the claims signed have exp = iat + 86401, not
    iat + 24 h. *)
Lemma C4_expiry_counterexample :
  (Unix (Sample.clock 1) = 1700000000
   ∧ Unix (Sample.clock 2) = 1700000001)%Z
  ∧ (Server.getToken Sample.Getenv Sample.clock Catalog.lifetimeSigner
       Sample.bindTokenRequest "alice" Catalog.afterOneReading).1
    = JSON StatusOK (TokenResponse "86401").
Proof. by vm_compute. Qed.

(** C4, amended: [getToken] answers a request with an empty user 400
    "User is required" without reading the clock or signing anything.  For a
    non-empty user it signs, with HS256 and the secret of
    [centrifugoConfig], a claim set with exactly the keys sub, iat and
    exp: sub is the user, iat is the clock reading taken for it in
    seconds, and exp is the clock reading taken for it plus 24 hours
    in seconds, which is iat + 86400 when both readings fall in the
    same second.  The answer is 200 with the signer's token when the
    signer gives one, and 500 "Failed to generate token" when the
    signer fails. *)
Theorem C4_credential_issuer (requestBody : string) (req : TokenRequest)
    (w : World) :
  bindTokenRequest requestBody = Some req →
  (User req = "" →
   getToken requestBody w
   = (JSON StatusBadRequest (H_error "User is required"), w))
  ∧ (User req ≠ "" →
     let iat := Unix (clock (clockReads w)) in
     let exp := (Unix (clock (S (clockReads w))) + 24 * 3600)%Z in
     let claims : gmap string ClaimValue :=
       {[ "sub" := ClaimStr (User req);
          "iat" := ClaimInt iat;
          "exp" := ClaimInt exp ]} in
     dom claims = {[ "sub"; "iat"; "exp" ]}
     ∧ (Unix (clock (clockReads w)) = Unix (clock (S (clockReads w))) →
        exp = (iat + 86400)%Z)
     ∧ (getToken requestBody w).1
       = match SignedString SigningMethodHS256 claims
                 (TokenHMACSecretKey (centrifugoConfig Getenv)) with
         | inl token => JSON StatusOK (TokenResponse token)
         | inr _ =>
           JSON StatusInternalServerError
                (H_error "Failed to generate token")
         end).
Proof.
  intros Hb. unfold Server.getToken. rewrite Hb. split.
  - intros ->. done.
  - intros Hu. rewrite String_eqb_false by done.
    cbv zeta. split; [|split].
    + rewrite !dom_insert_L, dom_singleton_L. set_solver.
    + intros ->. lia.
    + unfold bind, generateToken, bind, timeNow, ret.
      cbn [clockReads attempts logged].
      rewrite Unix_Add_24h, insert_empty.
      change (24 * 3600)%Z with 86400%Z.
      destruct (SignedString _ _ _); done.
Qed.

End RelayProperties.

(** The theorems above at the sample process. *)
Section RelayWitnesses.
Import Server.

Lemma C1_concrete_topic_routing_witness :
  let message := messageOf Sample.clock Sample.general Sample.start in
  let own := publishRequestFor message "general" in
  let mirror := publishRequestFor message "all" in
  let '(resp, w') :=
    sendMessage Sample.clock Sample.broker Sample.bindSendMessageRequest
      "general" Sample.start in
  match publishError (Sample.broker [] own) with
  | Some e =>
    resp = JSON StatusInternalServerError (H_error "Failed to send message")
    ∧ attempts w' = [] ++ [own]
  | None =>
    resp = JSON StatusOK (H_success true message)
    ∧ attempts w' = [] ++ [own; mirror]
  end.
Proof.
  apply (C1_concrete_topic_routing Sample.clock Sample.broker
           Sample.bindSendMessageRequest "general" Sample.general Sample.start);
    done.
Defined.

Lemma C2_all_topic_fan_out_witness :
  let message := messageOf Sample.clock Sample.all Sample.start in
  let fanned :=
    map (publishRequestFor message)
        ["all"; "general"; "tech"; "random"; "announcements"] in
  (sendMessage Sample.clock Sample.deadBroker
     Sample.bindSendMessageRequest "all" Sample.start).1
  = JSON StatusOK (H_success true message)
  ∧ attempts (sendMessage Sample.clock Sample.deadBroker
                Sample.bindSendMessageRequest "all" Sample.start).2
    = [] ++ fanned
  ∧ length fanned = 5.
Proof.
  apply (C2_all_topic_fan_out Sample.clock Sample.deadBroker
           Sample.bindSendMessageRequest "all" Sample.all Sample.start);
    done.
Defined.

Lemma C3_empty_field_rejected_witness :
  sendMessage Sample.clock Sample.broker Sample.bindSendMessageRequest
    "blank" Sample.start
  = (JSON StatusBadRequest
          (H_error "Topic, content, and author are required"),
     Sample.start).
Proof.
  apply (C3_empty_field_rejected Sample.clock Sample.broker
           Sample.bindSendMessageRequest "blank" Sample.blank Sample.start).
  - reflexivity.
  - right. left. reflexivity.
Defined.

Lemma C10_malformed_body_rejected_witness :
  sendMessage Sample.clock Sample.broker Sample.bindSendMessageRequest
    "{topic:" Sample.start
  = (JSON StatusBadRequest (H_error "Invalid request format"), Sample.start)
  ∧ (sendMessage Sample.clock Sample.broker Sample.bindSendMessageRequest
       "{topic:" Sample.start).1
    ≠ JSON StatusBadRequest
           (H_error "Topic, content, and author are required").
Proof.
  apply (C10_malformed_body_rejected Sample.clock Sample.broker
           Sample.bindSendMessageRequest "{topic:" Sample.start).
  reflexivity.
Defined.

Lemma C4_credential_issuer_witness :
  (getToken Sample.Getenv Sample.clock Sample.SignedString
     Sample.bindTokenRequest "alice" Sample.start).1
  = JSON StatusOK (TokenResponse "signed:s3cret").
Proof.
  pose proof (C4_credential_issuer Sample.Getenv Sample.clock
                Sample.SignedString Sample.bindTokenRequest "alice"
                {| User := "alice" |} Sample.start eq_refl) as [_ H].
  destruct H as (_ & _ & H); [done|].
  exact H.
Defined.

End RelayWitnesses.

(** ** Properties of the client script *)

Section ClientProperties.
Import Client.

(** *** What [joinTopic] touches *)

Lemma wire_alter_subscribed (b : bool) (h : nat) (l : list Subscription) :
  wire <$> alter (set_subscribed b) h l = wire <$> l.
Proof.
  rewrite (list_fmap_alter wire (set_subscribed b) (λ w, w)).
  - by apply list_alter_id.
  - by apply Forall_forall.
Qed.

Lemma alter_last {A} (f : A → A) (l : list A) (x : A) :
  alter f (length l) (l ++ [x]) = l ++ [f x].
Proof.
  replace (length l) with (length l + 0) by lia.
  by rewrite alter_app_r.
Qed.

Lemma joinTopic_frame (t : string) (s : State) :
  centrifuge (joinTopic t s) = centrifuge s
  ∧ connected (joinTopic t s) = connected s
  ∧ currentTopic (joinTopic t s) = t
  ∧ messages (joinTopic t s) = []
  ∧ username (joinTopic t s) = username s
  ∧ previousUsername (joinTopic t s) = previousUsername s
  ∧ clients (joinTopic t s) = clients s
  ∧ timers (joinTopic t s) = timers s
  ∧ pendingTokenFetches (joinTopic t s) = pendingTokenFetches s.
Proof.
  unfold joinTopic.
  destruct (subscription s) as [h0|]; simpl;
    destruct (centrifuge s) as [c|] eqn:Hc; simpl; rewrite ?Hc; try done;
    destruct (connected s) eqn:Hconn; simpl; rewrite ?Hc, ?Hconn; try done;
    destruct (subscriptions s !! channelOf t) as [h|]; simpl;
    by rewrite ?Hc, ?Hconn.
Qed.

(** With a client that is connected, [joinTopic] looks the channel up:
    an entry is taken as it is, and only a channel without entry gets a
    new object, which is entered. *)
Lemma joinTopic_connected (t : string) (s : State) (c : nat) :
  centrifuge s = Some c → connected s = true →
  match subscriptions s !! channelOf t with
  | Some h =>
    subscription (joinTopic t s) = Some h
    ∧ subscriptions (joinTopic t s) = subscriptions s
    ∧ wiring (joinTopic t s) = wiring s
    ∧ length (handles (joinTopic t s)) = length (handles s)
  | None =>
    subscription (joinTopic t s) = Some (length (handles s))
    ∧ subscriptions (joinTopic t s)
      = <[channelOf t := length (handles s)]> (subscriptions s)
    ∧ wiring (joinTopic t s) = wiring s ++ [(channelOf t, [t])]
    ∧ length (handles (joinTopic t s)) = S (length (handles s))
  end.
Proof.
  intros Hc Hconn. unfold joinTopic, wiring.
  destruct (subscription s) as [h0|]; simpl; rewrite Hc, Hconn; simpl;
    destruct (subscriptions s !! channelOf t) as [h|]; simpl;
    rewrite ?wire_alter_subscribed, ?alter_last, ?fmap_app,
      ?wire_alter_subscribed, ?length_app, ?length_alter;
    simpl; repeat split; try done; lia.
Qed.

Lemma joinTopic_disconnected (t : string) (s : State) :
  centrifuge s = None ∨ connected s = false →
  subscriptions (joinTopic t s) = subscriptions s
  ∧ wiring (joinTopic t s) = wiring s.
Proof.
  intros Hd. unfold joinTopic, wiring.
  destruct (subscription s) as [h0|]; simpl;
    destruct (centrifuge s) as [c|]; simpl;
    rewrite ?wire_alter_subscribed; try done;
    destruct Hd as [Hd|Hd]; try done; rewrite Hd; simpl;
    by rewrite ?wire_alter_subscribed.
Qed.

Lemma joinTopic_grows (t : string) (s : State) : grows s (joinTopic t s).
Proof.
  destruct (centrifuge s) as [c|] eqn:Hc;
    [destruct (connected s) eqn:Hconn|].
  - pose proof (joinTopic_connected t s c Hc Hconn) as H.
    destruct (subscriptions s !! channelOf t) as [h|] eqn:Hl.
    + left. tauto.
    + right. exists t. unfold wiring at 1. rewrite length_fmap. tauto.
  - left. apply joinTopic_disconnected. by right.
  - left. apply joinTopic_disconnected. by left.
Qed.

(** *** Every turn of the event loop only ever adds to the registry *)

Lemma grows_same (s s' : State) :
  subscriptions s' = subscriptions s → handles s' = handles s → grows s s'.
Proof. intros Hs Hh. left. unfold wiring. by rewrite Hs, Hh. Qed.

Lemma grows_from (s0 s s' : State) :
  subscriptions s0 = subscriptions s → handles s0 = handles s →
  grows s0 s' → grows s s'.
Proof.
  unfold grows, wiring. intros Hs Hh. by rewrite Hs, Hh.
Qed.

Lemma usernameReaction_same (s : State) :
  subscriptions (usernameReaction s) = subscriptions s
  ∧ handles (usernameReaction s) = handles s.
Proof.
  unfold usernameReaction, reconnectWithNewToken, disconnect, onDisconnected.
  destruct (_ && _); simpl.
  - destruct (centrifuge s); simpl; [by destruct (live _ _)|done].
  - by destruct (String.eqb _ _).
Qed.

Lemma getTokenAndConnect_resume_same (r : FetchResult) (s : State) :
  subscriptions (getTokenAndConnect_resume r s) = subscriptions s
  ∧ handles (getTokenAndConnect_resume r s) = handles s.
Proof.
  destruct r as [|[] []]; simpl; unfold connect; simpl;
    by destruct (live _ _).
Qed.

Lemma onMount_resume_same loaded n (s : State) :
  subscriptions (onMount_resume loaded n s) = subscriptions s
  ∧ handles (onMount_resume loaded n s) = handles s.
Proof.
  unfold onMount_resume.
  destruct (usernameReaction_same
              (initializeCentrifugo
                 (set_username ("User" +:+ pretty n)
                    match loaded with
                    | Some ts => set_availableTopics ts s
                    | None =>
                      emit [ConsoleError "Failed to load topics:"]
                        (set_availableTopics
                           ["all"; "general"; "tech"; "random"] s)
                    end))) as [-> ->].
  by destruct loaded.
Qed.

Lemma publicationListeners_same (message : Message) (ts : list string) :
  ∀ s : State,
  subscriptions (foldl (λ s t, publicationListener t message s) s ts)
  = subscriptions s
  ∧ handles (foldl (λ s t, publicationListener t message s) s ts)
    = handles s.
Proof.
  induction ts as [|t ts IH]; intros s; simpl; [done|].
  destruct (IH (publicationListener t message s)) as [-> ->].
  unfold publicationListener. by destruct (String.eqb _ _).
Qed.

Lemma step_grows (s : State) (e : Event) : grows s (step s e).
Proof.
  destruct e as [loaded n|u|t| |r|c|c|h message]; simpl.
  - destruct (pendingTopicsFetch s); [|by apply grows_same].
    by destruct (onMount_resume_same loaded n (set_pendingTopicsFetch false s));
      apply grows_same.
  - by destruct (usernameReaction_same (set_username u s)); apply grows_same.
  - apply joinTopic_grows.
  - by destruct (timers s); apply grows_same.
  - destruct (pendingTokenFetches s) as [|k]; [by apply grows_same|].
    by destruct (getTokenAndConnect_resume_same r
                   (set_pendingTokenFetches k s)); apply grows_same.
  - destruct (clients s !! c) as [o|]; [|by apply grows_same].
    destruct (live s c); [|by apply grows_same].
    unfold onConnected.
    eapply grows_from; [| |apply joinTopic_grows]; done.
  - destruct (clients s !! c); [|by apply grows_same].
    by destruct (live s c); apply grows_same.
  - destruct (handles s !! h) as [o|]; [|by apply grows_same].
    by destruct (publicationListeners_same message
                   (publicationListeners o) s); apply grows_same.
Qed.

Lemma grows_lookup (s s' : State) (ch : string) (h : nat) :
  grows s s' →
  subscriptions s !! ch = Some h → subscriptions s' !! ch = Some h.
Proof.
  intros [[-> _] | (t & Hnone & -> & _)] Hl; [done|].
  rewrite lookup_insert_ne; [done|]. congruence.
Qed.

Lemma grows_registry_ok (s s' : State) :
  registry_ok s → grows s s' → registry_ok s'.
Proof.
  intros [Hreg Hall] [[Hs Hw] | (t & Hnone & Hs & Hw)];
    unfold registry_ok; rewrite Hs, Hw; [done|].
  split.
  - intros ch h. rewrite lookup_insert. case_decide as Hch.
    + subst ch. split.
      * intros [= <-]. exists [t]. by rewrite lookup_app_r, Nat.sub_diag.
      * intros [ls Hl]. f_equal.
        destruct (decide (h < length (wiring s))) as [Hlt|Hge].
        -- rewrite lookup_app_l in Hl by done.
           assert (subscriptions s !! channelOf t = Some h) as Hsome
             by (apply Hreg; eauto).
           congruence.
        -- rewrite lookup_app_r in Hl by lia.
           apply lookup_lt_Some in Hl as Hlen. simpl in Hlen. lia.
    + rewrite Hreg. split.
      * intros [ls Hl]. exists ls. by apply lookup_app_l_Some.
      * intros [ls Hl]. exists ls.
        destruct (decide (h < length (wiring s))) as [Hlt|Hge].
        -- by rewrite lookup_app_l in Hl.
        -- rewrite lookup_app_r in Hl by lia.
           destruct (h - length (wiring s)) as [|k]; simpl in Hl;
             [congruence | done].
  - apply Forall_app. split; [done|].
    apply Forall_singleton. by exists t.
Qed.

Lemma init_registry_ok : registry_ok init.
Proof.
  split; [|by apply Forall_nil].
  intros ch h. unfold wiring. simpl. rewrite lookup_empty.
  split; [done|]. by intros [ls Hl].
Qed.

Lemma run_registry_ok (evs : list Event) :
  ∀ s, registry_ok s → registry_ok (run evs s).
Proof.
  induction evs as [|e evs IH]; intros s Hs; [done|].
  apply IH. eapply grows_registry_ok; [done|apply step_grows].
Qed.


Lemma registry_ok_listener (s : State) (h : nat) (o : Subscription) :
  registry_ok s → handles s !! h = Some o →
  ∃ t, channel o = channelOf t ∧ publicationListeners o = [t].
Proof.
  intros [_ Hall] Hh.
  assert (wiring s !! h = Some (wire o)) as Hw
    by (unfold wiring; by rewrite list_lookup_fmap, Hh).
  destruct (Forall_lookup_1 _ _ _ _ Hall Hw) as [t [= Hc Hl]].
  by exists t.
Qed.

Lemma channelOf_inj (a b : string) : channelOf a = channelOf b → a = b.
Proof. intros H. cbv in H. congruence. Qed.


(** *** Deliveries *)

Lemma publicationListener_frame (t : string) (message : Message) (s : State) :
  handles (publicationListener t message s) = handles s
  ∧ currentTopic (publicationListener t message s) = currentTopic s.
Proof. unfold publicationListener. by destruct (String.eqb _ _). Qed.

Lemma publication_step (s : State) (h : nat) (o : Subscription)
    (message : Message) :
  registry_ok s → handles s !! h = Some o →
  step s (EvPublication h message)
  = if onCurrentChannel s h
    then emit [ScrollToBottom] (set_messages (messages s ++ [message]) s)
    else s.
Proof.
  intros Hok Hh.
  destruct (registry_ok_listener s h o Hok Hh) as (t & Hch & Hls).
  unfold onCurrentChannel. simpl. rewrite Hh, Hls. simpl.
  unfold publicationListener.
  destruct (String.eqb (currentTopic s) t) eqn:E.
  - apply String.eqb_eq in E. subst t.
    by rewrite bool_decide_eq_true_2.
  - apply String.eqb_neq in E.
    rewrite bool_decide_eq_false_2; [done|].
    rewrite Hch. intros Heq. apply channelOf_inj in Heq. congruence.
Qed.

Lemma step_missing_handle (s : State) (h : nat) (message : Message) :
  handles s !! h = None → step s (EvPublication h message) = s.
Proof. intros Hh. simpl. by rewrite Hh. Qed.

Lemma deliver_messages (ds : list (nat * Message)) :
  ∀ s, registry_ok s →
  messages (run (deliver ds) s)
  = messages s ++ (List.filter (λ d, onCurrentChannel s d.1) ds).*2.
Proof.
  induction ds as [|[h message] ds IH]; intros s Hok.
  - simpl. by rewrite app_nil_r.
  - change (run (deliver ((h, message) :: ds)) s)
      with (run (deliver ds) (step s (EvPublication h message))).
    cbn [fst snd List.filter].
    set (s' := step s (EvPublication h message)).
    assert (registry_ok s') as Hok'
      by (eapply grows_registry_ok; [done|apply step_grows]).
    assert (handles s' = handles s ∧ currentTopic s' = currentTopic s
            ∧ messages s'
              = if onCurrentChannel s h then messages s ++ [message]
                else messages s) as (Hh & Hct & Hm).
    { subst s'. destruct (handles s !! h) as [o|] eqn:Hl.
      - rewrite (publication_step s h o) by done.
        by destruct (onCurrentChannel s h).
      - rewrite step_missing_handle by done.
        unfold onCurrentChannel. by rewrite Hl. }
    rewrite (IH s' Hok'), Hm.
    assert (∀ d : nat * Message,
               onCurrentChannel s' d.1 = onCurrentChannel s d.1) as Hsame
      by (intros d; unfold onCurrentChannel; by rewrite Hh, Hct).
    rewrite (List.filter_ext _ _ Hsame).
    destruct (onCurrentChannel s h); simpl; [|done].
    by rewrite <- app_assoc.
Qed.

(** C6: in every state the script can reach, a delivery on a
    subscription object whose channel is the channel of the current
    topic appends the delivered message at the end of [messages]; a
    delivery on any other subscription object leaves the whole state as
    it was, so the message is kept nowhere; and after a sequence of
    deliveries [messages] is what it was, followed by the messages
    delivered on the object of the current channel, in the order of
    delivery. *)
Theorem C6_delivery_filter (evs : list Event) :
  let s := run evs init in
  (∀ h o message,
      handles s !! h = Some o →
      (channel o = channelOf (currentTopic s) →
       messages (step s (EvPublication h message))
       = messages s ++ [message])
      ∧ (channel o ≠ channelOf (currentTopic s) →
         step s (EvPublication h message) = s))
  ∧ (∀ ds : list (nat * Message),
      messages (run (deliver ds) s)
      = messages s ++ (List.filter (λ d, onCurrentChannel s d.1) ds).*2).
Proof.
  intros s.
  assert (registry_ok s) as Hok by apply run_registry_ok, init_registry_ok.
  split.
  - intros h o message Hh.
    rewrite (publication_step s h o) by done.
    unfold onCurrentChannel. rewrite Hh. split; intros Hch.
    + by rewrite bool_decide_eq_true_2.
    + by rewrite bool_decide_eq_false_2.
  - intros ds. by apply deliver_messages.
Qed.

(** *** Reconnecting *)

(** C7 as it is worded does not hold for the empty user name: once
    connected as "User7", emptying the name field gives a name that
    differs from the one applied before, which is not the initial one,
    and yet the turn changes nothing but [username]: nothing is
    disconnected and no timer is set. *)
Lemma C7_empty_name_counterexample :
  let s := run firstConnect init in
  previousUsername s = "User7"
  ∧ "" ≠ previousUsername s
  ∧ previousUsername s ≠ ""
  ∧ step s (EvUsernameInput "") = set_username "" s
  ∧ effects (step s (EvUsernameInput "")) = effects s
  ∧ timers (step s (EvUsernameInput "")) = [].
Proof. vm_compute. by repeat split. Qed.

(** What [disconnect()] does: the call is recorded; a client that was
    connecting or connected is disconnected afterwards and its
    'disconnected' listener has run, so [connected] is false and the
    listener's line is logged; timers, names, clients, token requests
    and topic stay as they were. *)
Lemma disconnect_spec (c : nat) (s : State) :
  effects (disconnect c s)
  = effects s
    ++ Disconnect c
       :: (if live s c then [ConsoleLog "Disconnected from Centrifugo"]
           else [])
  ∧ connected (disconnect c s) = (if live s c then false else connected s)
  ∧ live (disconnect c s) c = false
  ∧ timers (disconnect c s) = timers s
  ∧ previousUsername (disconnect c s) = previousUsername s
  ∧ username (disconnect c s) = username s
  ∧ clients (disconnect c s) = clients s
  ∧ pendingTokenFetches (disconnect c s) = pendingTokenFetches s
  ∧ currentTopic (disconnect c s) = currentTopic s.
Proof.
  unfold disconnect, onDisconnected.
  change (live (emit [Disconnect c] s) c) with (live s c).
  destruct (live s c) eqn:Hlive; simpl.
  - rewrite <- app_assoc. repeat split; try done.
    unfold live. simpl. by rewrite lookup_insert_eq.
  - repeat split; done.
Qed.

(** What the turn of a settled token request with a token does. *)
Lemma token_turn (s : State) (n : nat) (data : TokenData) :
  pendingTokenFetches s = S n →
  let c := length (clients s) in
  let s' := step s (EvTokenSettled (Responded true (Some data))) in
  centrifuge s' = Some c
  ∧ clients s'
    = clients s ++ [{| endpoint := CENTRIFUGO_URL;
                       token := data_token data;
                       anonymous := false |}]
  ∧ effects s' = effects s ++ [NewCentrifuge c; Connect c]
  ∧ live s' c = true
  ∧ currentTopic s' = currentTopic s.
Proof.
  intros Hp. simpl. rewrite Hp. simpl. unfold connect.
  assert (∀ s0 : State,
            clientStates s0 !! length (clients s) = Some StateDisconnected →
            live s0 (length (clients s)) = false) as Hdead
    by (intros s0 H; unfold live; by rewrite H).
  rewrite Hdead by (simpl; by rewrite lookup_insert_eq).
  simpl. rewrite <- app_assoc. repeat split; try done.
  unfold live. simpl. by rewrite lookup_insert_eq.
Qed.

Lemma connected_turn (s : State) (c : nat) (o : Centrifuge) :
  clients s !! c = Some o → live s c = true →
  step s (EvConnected c)
  = onConnected (anonymous o) (set_clientState c StateConnected s).
Proof. intros Hc Hl. simpl. by rewrite Hc, Hl. Qed.

(** C7, amended: a user name set while the name applied before is the
    initial empty one is only recorded, and the turn in which [onMount]
    sets the default name requests a token and records the name:
    neither disconnects anything or sets a timer.  A change to a
    non-empty name that differs from the name applied before, itself not
    the initial one, calls [disconnect()] on the current client if there
    is one (a client that was connecting or connected is disconnected
    by it and its listener has set [connected] to false and logged
    before the call returns) and then sets a single timer of 500 ms;
    when a timer fires, one token request for the new name is made; when
    it is answered with a token, one new client is made with that token
    and connected; and when that client reports connected, [connected]
    is set and [joinTopic] runs for the current topic. *)
Theorem C7_identity_change_cycle (s : State) (u : string) :
  (previousUsername s = "" →
   step s (EvUsernameInput u) = set_previousUsername u (set_username u s)
   ∧ (pendingTopicsFetch s = true →
      ∀ loaded n,
      let s' := step s (EvTopicsSettled loaded n) in
      previousUsername s' = "User" +:+ pretty n
      ∧ timers s' = timers s
      ∧ effects s'
        = effects s
          ++ match loaded with
             | Some _ => []
             | None => [ConsoleError "Failed to load topics:"]
             end
          ++ [FetchToken ("User" +:+ pretty n)]))
  ∧ (previousUsername s ≠ "" → u ≠ "" → u ≠ previousUsername s →
     ∀ data : TokenData,
     let c' := length (clients s) in
     let s1 := step s (EvUsernameInput u) in
     let s2 := step s1 EvTimer in
     let s3 := step s2 (EvTokenSettled (Responded true (Some data))) in
     let s4 := step s3 (EvConnected c') in
     (previousUsername s1 = u
      ∧ timers s1 = timers s ++ [500]
      ∧ effects s1
        = effects s
          ++ match centrifuge s with
             | Some c =>
               Disconnect c
               :: (if live s c
                   then [ConsoleLog "Disconnected from Centrifugo"]
                   else [])
             | None => []
             end
          ++ [SetTimeout 500]
      ∧ connected s1
        = match centrifuge s with
          | Some c => if live s c then false else connected s
          | None => connected s
          end
      ∧ ∀ c, centrifuge s = Some c → live s1 c = false)
     ∧ (length (timers s2) = length (timers s)
        ∧ effects s2 = effects s1 ++ [FetchToken u])
     ∧ (centrifuge s3 = Some c'
        ∧ clients s3
          = clients s ++ [{| endpoint := CENTRIFUGO_URL;
                             token := data_token data;
                             anonymous := false |}]
        ∧ effects s3 = effects s2 ++ [NewCentrifuge c'; Connect c']
        ∧ live s3 c' = true)
     ∧ s4 = joinTopic (currentTopic s)
              (emit [ConsoleLog "Connected to Centrifugo"]
                 (set_connected true
                    (set_clientState c' StateConnected s3)))).
Proof.
  split.
  - intros Hprev. split.
    + simpl. unfold usernameReaction. simpl.
      rewrite Hprev. simpl. by rewrite andb_false_r.
    + intros Hpend loaded n. simpl. rewrite Hpend.
      unfold onMount_resume, usernameReaction.
      destruct loaded as [ts|]; simpl; rewrite Hprev; simpl;
        rewrite ?andb_false_r; simpl; by rewrite <- ?app_assoc.
  - intros Hprev Hu Hne data c' s1 s2 s3 s4.
    set (s0 := set_previousUsername u (set_username u s)).
    set (sd := match centrifuge s with
               | Some c => disconnect c s0
               | None => s0
               end).
    assert (s1 = emit [SetTimeout 500] (set_timers (timers sd ++ [500]) sd))
      as Hs1.
    { subst s1 sd s0. simpl. unfold usernameReaction. simpl.
      by rewrite !String_eqb_false by done. }
    assert (effects sd
            = effects s
              ++ match centrifuge s with
                 | Some c =>
                   Disconnect c
                   :: (if live s c
                       then [ConsoleLog "Disconnected from Centrifugo"]
                       else [])
                 | None => []
                 end
            ∧ connected sd
              = match centrifuge s with
                | Some c => if live s c then false else connected s
                | None => connected s
                end
            ∧ (∀ c, centrifuge s = Some c → live sd c = false)
            ∧ timers sd = timers s
            ∧ previousUsername sd = u
            ∧ username sd = u
            ∧ clients sd = clients s
            ∧ pendingTokenFetches sd = pendingTokenFetches s
            ∧ currentTopic sd = currentTopic s)
      as (Hed & Hcd & Hld & Htd & Hpd & Hud & Hcld & Hpfd & Hctd).
    { subst sd. destruct (centrifuge s) as [c|].
      - destruct (disconnect_spec c s0)
          as (-> & -> & Hl & -> & -> & -> & -> & -> & ->).
        repeat split; try done. by intros ? [= <-].
      - rewrite app_nil_r. repeat split; done. }
    clearbody sd s1. subst s1.
    assert (s2 = emit [FetchToken u]
                   (set_pendingTokenFetches (S (pendingTokenFetches s))
                      (set_timers (tail (timers s ++ [500]))
                         (emit [SetTimeout 500]
                            (set_timers (timers sd ++ [500]) sd)))))
      as Hs2.
    { subst s2. simpl. rewrite Htd.
      destruct (timers s); simpl;
        unfold initializeCentrifugo, getTokenAndConnect; simpl;
        by rewrite Hud, Hpfd. }
    clearbody s2. subst s2.
    destruct (token_turn
                (emit [FetchToken u]
                   (set_pendingTokenFetches (S (pendingTokenFetches s))
                      (set_timers (tail (timers s ++ [500]))
                         (emit [SetTimeout 500]
                            (set_timers (timers sd ++ [500]) sd)))))
                (pendingTokenFetches s) data)
      as (Hc3 & Hcl3 & He3 & Hl3 & Hct3); [done|].
    fold s3 in Hc3, Hcl3, He3, Hl3, Hct3.
    simpl in Hc3, Hcl3, He3, Hl3, Hct3.
    rewrite Hcld in Hc3, Hcl3, He3, Hl3. fold c' in Hc3, He3, Hl3.
    split; [|split; [|split]].
    + simpl. rewrite Htd, Hed, Hcd, Hpd, <- app_assoc.
      repeat split; done.
    + simpl. split; [|done].
      destruct (timers s); simpl; rewrite ?length_app; simpl; lia.
    + done.
    + subst s4.
      rewrite (connected_turn s3 c'
                 {| endpoint := CENTRIFUGO_URL; token := data_token data;
                    anonymous := false |});
        [|rewrite Hcl3; by rewrite lookup_app_r, Nat.sub_diag|done].
      unfold onConnected. simpl. rewrite Hct3. simpl.
      by rewrite Hctd.
Qed.

Lemma onConnected_connected (anon : bool) (s : State) :
  connected (onConnected anon s) = true.
Proof.
  unfold onConnected. set (s' := emit _ _).
  by destruct (joinTopic_frame (currentTopic s') s') as (_ & -> & _).
Qed.

Lemma step_connected (s : State) (c : nat) (o : Centrifuge) :
  clients s !! c = Some o → live s c = true →
  connected (step s (EvConnected c)) = true.
Proof.
  intros Hc Hl. rewrite (connected_turn s c o) by done.
  apply onConnected_connected.
Qed.

(** C8: when the token request is rejected or answered with a response
    that is not ok, the script writes the failure to the console, makes
    a client without token, makes it the current client and connects
    it; nothing else leaves the script. *)
Theorem C8_token_failure_fallback (s : State) (r : FetchResult) :
  pendingTokenFetches s ≠ 0 →
  (r = Rejected ∨ ∃ data, r = Responded false data) →
  let c := length (clients s) in
  let s' := step s (EvTokenSettled r) in
  centrifuge s' = Some c
  ∧ clients s'
    = clients s ++ [{| endpoint := CENTRIFUGO_URL; token := None;
                       anonymous := true |}]
  ∧ effects s'
    = effects s ++ [ConsoleError "Failed to get token or connect:";
                    ConsoleLog "Falling back to anonymous connection...";
                    NewCentrifuge c; Connect c]
  ∧ connected (step s' (EvConnected c)) = true.
Proof.
  intros Hpending Hfail c s'.
  assert (centrifuge s' = Some c
          ∧ clients s'
            = clients s ++ [{| endpoint := CENTRIFUGO_URL; token := None;
                               anonymous := true |}]
          ∧ effects s'
            = effects s
              ++ [ConsoleError "Failed to get token or connect:";
                  ConsoleLog "Falling back to anonymous connection...";
                  NewCentrifuge c; Connect c]
          ∧ live s' c = true) as (Hc & Hcl & He & Hl).
  { subst s' c. simpl.
    destruct (pendingTokenFetches s) as [|k]; [done|].
    assert (∀ s0 : State,
              clientStates s0 !! length (clients s) = Some StateDisconnected →
              live s0 (length (clients s)) = false) as Hdead
      by (intros s0 H; unfold live; by rewrite H).
    destruct Hfail as [-> | [data ->]]; simpl; unfold connect;
      rewrite Hdead by (simpl; by rewrite lookup_insert_eq);
      simpl; rewrite <- !app_assoc; repeat split; try done;
      unfold live; simpl; by rewrite lookup_insert_eq. }
  repeat split; try done.
  eapply step_connected; [|done]. rewrite Hcl.
  by rewrite lookup_app_r, Nat.sub_diag.
Qed.

(** C9 fails on the script: after connecting as "User7" on topic "all"
    and renaming to "bob", the client made for "bob" (number 1) is the
    current one, and the turn in which it reports connected calls
    [subscribe] on subscription object 0, which the first client
    (number 0) made; no subscription object of client 1 exists. *)
Theorem C9_stale_handle_reused :
  let s := run renameAndReconnect init in
  centrifuge s = Some 1
  ∧ subscription s = Some 0
  ∧ subscriptions s !! "topic:all" = Some 0
  ∧ handles s = [{| channel := "topic:all"; client := 0;
                    publicationListeners := ["all"];
                    subscribed := true |}]
  ∧ effects s
    = effects (run firstConnect init)
      ++ [Disconnect 0;
          ConsoleLog "Disconnected from Centrifugo";
          SetTimeout 500;
          FetchToken "bob"; NewCentrifuge 1; Connect 1;
          ConsoleLog "Connected to Centrifugo";
          Unsubscribe 0; Subscribe 0].
Proof. vm_compute. by repeat split. Qed.

End ClientProperties.

(** The theorems above on the run that connects as "User7". *)
Section ClientWitnesses.
Import Client.


Lemma C6_delivery_filter_witness :
  let s := run firstConnect init in
  let o := {| channel := "topic:all"; client := 0;
              publicationListeners := ["all"]; subscribed := true |} in
  let m := {| id := "1"; topic := "tech"; content := "hi";
              author := "bob"; timestamp := "2026-01-01T00:00:00Z" |} in
  (handles s !! 0 = Some o ∧ channel o = channelOf (currentTopic s))
  ∧ messages (step s (EvPublication 0 m)) = messages s ++ [m].
Proof.
  intros s o m. split; [by vm_compute|].
  destruct (C6_delivery_filter firstConnect) as [H _].
  destruct (H 0 o m) as [Hin _]; [by vm_compute|].
  apply Hin. by vm_compute.
Defined.

Lemma C7_identity_change_cycle_witness :
  let s := run firstConnect init in
  let s1 := step s (EvUsernameInput "bob") in
  (previousUsername s ≠ "" ∧ "bob" ≠ "" ∧ "bob" ≠ previousUsername s)
  ∧ previousUsername s1 = "bob"
  ∧ timers s1 = [] ++ [500]
  ∧ effects s1
    = effects s
      ++ [Disconnect 0; ConsoleLog "Disconnected from Centrifugo"]
      ++ [SetTimeout 500]
  ∧ connected s1 = false.
Proof.
  intros s s1. split; [by vm_compute|].
  destruct (C7_identity_change_cycle s "bob") as [_ H].
  destruct (H ltac:(by vm_compute) ltac:(done) ltac:(by vm_compute)
              {| data_token := Some "t1" |})
    as [(Hp & Ht & He & Hc & _) _].
  split; [exact Hp|split; [exact Ht|split; [exact He|exact Hc]]].
Defined.

Lemma C8_token_failure_fallback_witness :
  let s := step (run firstConnect init) EvTimer in
  let s0 := step (step (run firstConnect init) (EvUsernameInput "bob"))
                 EvTimer in
  pendingTokenFetches s0 ≠ 0
  ∧ centrifuge (step s0 (EvTokenSettled Rejected)) = Some 1.
Proof.
  intros s s0. split; [by vm_compute|].
  destruct (C8_token_failure_fallback s0 Rejected) as [H _];
    [by vm_compute | by left |].
  exact H.
Defined.

End ClientWitnesses.

(** ** Further properties of the relay server *)

Section RelayFurther.
Import Server Catalog.

Variable Getenv : string → string.
Variable clock : nat → Time.
Variable broker : list PublishRequest → PublishRequest → HttpOutcome.
Variable SignedString :
  SigningMethod → gmap string ClaimValue → string → string + string.
Variable bindTokenRequest : string → option TokenRequest.
Variable bindSendMessageRequest : string → option SendMessageRequest.

Abbreviation sendMessage' :=
  (Server.sendMessage clock broker bindSendMessageRequest).
Abbreviation getToken' :=
  (Server.getToken Getenv clock SignedString bindTokenRequest).
Abbreviation fanOutBody' := (Server.fanOutBody broker).

Lemma getEnv_nonempty (key d : string) : d ≠ "" → getEnv Getenv key d ≠ "".
Proof.
  intros Hd. unfold getEnv.
  destruct (String.eqb (Getenv key) "") eqn:E; simpl; [done|].
  by apply String.eqb_neq.
Qed.

(** X1: whatever the environment holds, no field of [centrifugoConfig]
    is the empty string, and a variable that is set to a non-empty value
    is taken as it is. *)
Theorem config_never_empty (key d v : string) :
  URL (centrifugoConfig Getenv) ≠ ""
  ∧ APIKey (centrifugoConfig Getenv) ≠ ""
  ∧ TokenHMACSecretKey (centrifugoConfig Getenv) ≠ ""
  ∧ (Getenv key = v → v ≠ "" → getEnv Getenv key d = v)
  ∧ (Getenv key = "" → getEnv Getenv key d = d).
Proof.
  repeat split; try (by apply getEnv_nonempty).
  - intros Hk Hv. unfold getEnv. rewrite Hk.
    by rewrite String_eqb_false.
  - intros Hk. unfold getEnv. by rewrite Hk.
Qed.

(** X2: [publishToCentrifugo] records exactly one publish call, leaves
    clock and log alone, and returns no error exactly when the broker
    answered with status 200. *)
Theorem publish_succeeds_iff_200 (channel : string) (data : Message)
    (w : World) :
  let req := {| Channel := channel; Data := data |} in
  let r := publishToCentrifugo broker channel data w in
  attempts r.2 = attempts w ++ [req]
  ∧ clockReads r.2 = clockReads w
  ∧ logged r.2 = logged w
  ∧ (r.1 = None ↔ ∃ respBody, broker (attempts w) req = HttpResponse 200 respBody).
Proof.
  simpl. repeat split; try done.
  - destruct (broker _ _) as [c|c|code respBody]; simpl; try done.
    destruct (code =? StatusOK)%Z eqn:E; simpl; [|done].
    apply Z.eqb_eq in E. subst code. by exists respBody.
  - intros [respBody ->]. done.
Qed.

(** X3: for every request body, [sendMessage] only adds publish calls
    to those made before, and the status of its answer tells how many:
    none with 400 (and then nothing at all has changed), one with 500,
    and two or five with 200.  No other status is given. *)
Theorem sendMessage_status_counts_publishes (requestBody : string) (w : World) :
  let r := sendMessage' requestBody w in
  ∃ new, attempts r.2 = attempts w ++ new
    ∧ ((status r.1 = StatusBadRequest ∧ new = [] ∧ r.2 = w)
       ∨ (status r.1 = StatusInternalServerError ∧ length new = 1)
       ∨ (status r.1 = StatusOK ∧ (length new = 2 ∨ length new = 5))).
Proof using clock broker bindSendMessageRequest.
  unfold Server.sendMessage.
  destruct (bindSendMessageRequest requestBody) as [req|];
    [|exists []; rewrite app_nil_r; simpl; split; [done|by left]].
  destruct (_ || _);
    [exists []; rewrite app_nil_r; simpl; split; [done|by left]|].
  unfold bind, timeNow, ret. cbn [clockReads attempts logged].
  set (message := {| ID := _ |}).
  set (w2 := {| clockReads := _ |}).
  destruct (String.eqb (reqTopic req) "all").
  - pose proof (forEach_fanOut_world broker message topics w2) as [_ Hatt].
    destruct (forEach topics (fanOutBody' message) w2) as [u w3].
    cbn [fst snd] in *.
    exists (map (publishRequestFor message) topics).
    split; [done|]. right. right. split; [done|]. by right.
  - unfold publishToCentrifugo. cbn [attempts clockReads logged].
    destruct (publishError _) as [e|]; cbn [fst snd attempts logPrintf].
    + exists [{| Channel := channelOf (reqTopic req); Data := message |}].
      split; [done|]. right. left. done.
    + exists [{| Channel := channelOf (reqTopic req); Data := message |};
              {| Channel := "topic:all"; Data := message |}].
      split.
      * destruct (publishError _); simpl; by rewrite <- app_assoc.
      * right. right. destruct (publishError _); simpl; split; auto.
Qed.

Lemma publishRequestFor_carries (message : Message)
    (req : SendMessageRequest) (t : string) :
  t = reqTopic req ∨ t ∈ topics →
  Data (publishRequestFor message t) = message
  ∧ ∃ t', Channel (publishRequestFor message t) = "topic:" +:+ t'
          ∧ (t' = reqTopic req ∨ t' ∈ topics).
Proof. intros Ht. split; [done|by exists t]. Qed.

(** X4: every publish call [sendMessage] makes for a request carries the
    one message built for it, whose topic, content and author are those
    of the request, and goes to the channel named after the topic of
    the request or after a topic of the catalog; a 200 answer returns
    that same message. *)
Theorem sendMessage_publishes_the_request (requestBody : string)
    (req : SendMessageRequest) (w : World) :
  bindSendMessageRequest requestBody = Some req →
  let r := sendMessage' requestBody w in
  let message := messageOf clock req w in
  (Topic message, Content message, Author message)
  = (reqTopic req, reqContent req, reqAuthor req)
  ∧ (∃ new, attempts r.2 = attempts w ++ new
       ∧ Forall (λ p, Data p = message
                      ∧ ∃ t, Channel p = "topic:" +:+ t
                             ∧ (t = reqTopic req ∨ t ∈ topics)) new)
  ∧ (status r.1 = StatusOK → body r.1 = H_success true message).
Proof using clock broker bindSendMessageRequest.
  intros Hb. split; [done|].
  unfold Server.sendMessage. rewrite Hb.
  destruct (_ || _);
    [split; [exists []; by rewrite app_nil_r | done]|].
  unfold bind, timeNow, ret. cbn [clockReads attempts logged].
  fold (messageOf clock req w).
  set (message := messageOf clock req w).
  set (w2 := {| clockReads := _ |}).
  destruct (String.eqb (reqTopic req) "all").
  - pose proof (forEach_fanOut_world broker message topics w2) as [_ Hatt].
    destruct (forEach topics (fanOutBody' message) w2) as [u w3].
    cbn [fst snd] in *. split; [|done].
    exists (map (publishRequestFor message) topics). split; [done|].
    apply Forall_fmap, Forall_forall. intros t Ht. simpl.
    split; [done|]. exists t. by split; [|right].
  - unfold publishToCentrifugo. cbn [attempts clockReads logged].
    destruct (publishError _) as [e|]; cbn [fst snd attempts logPrintf].
    + split; [|done].
      exists [publishRequestFor message (reqTopic req)]. split; [done|].
      apply Forall_singleton, publishRequestFor_carries. by left.
    + split; [|by destruct (publishError _)].
      exists [publishRequestFor message (reqTopic req);
              publishRequestFor message "all"].
      split; [destruct (publishError _); simpl; by rewrite <- app_assoc|].
      apply Forall_cons. split; [apply publishRequestFor_carries; by left|].
      apply Forall_singleton, publishRequestFor_carries. right.
      apply list_elem_of_here.
Qed.

Lemma omap_imap_reindex {A B} (f g : nat * A → option B) (l : list A) :
  ∀ h1 h2 : nat → nat,
  (∀ i x, f (h1 i, x) = g (h2 i, x)) →
  omap f (imap (λ i x, (h1 i, x)) l) = omap g (imap (λ i x, (h2 i, x)) l).
Proof.
  induction l as [|a l IH]; intros h1 h2 Hfg; [done|].
  rewrite !imap_cons. cbn [omap list_omap]. rewrite Hfg.
  assert (omap f (imap ((λ i x, (h1 i, x)) ∘ S) l)
          = omap g (imap ((λ i x, (h2 i, x)) ∘ S) l)) as ->; [|done].
  apply (IH (h1 ∘ S) (h2 ∘ S)). intros i x. apply Hfg.
Qed.

Abbreviation loggedFor' := (loggedFor broker).

Lemma forEach_fanOut_logged (message : Message) (l : list string) :
  ∀ w,
  logged (forEach l (fanOutBody' message) w).2
  = logged w ++ omap (loggedFor' message (attempts w) l) (numbered l).
Proof.
  induction l as [|t l IH]; intros w.
  - simpl. by rewrite app_nil_r.
  - cbn [forEach]. unfold bind.
    destruct (fanOutBody' message t w) as [u w1] eqn:E.
    rewrite IH.
    assert (attempts w1 = attempts w ++ [publishRequestFor message t]
            ∧ logged w1
              = logged w
                ++ option_list (loggedFor' message (attempts w) (t :: l) (0, t)))
      as [Ha Hl].
    { unfold Server.fanOutBody, bind, publishToCentrifugo in E.
      unfold loggedFor. cbn [fst snd take]. rewrite app_nil_r.
      fold (publishRequestFor message t) in E.
      destruct (publishError _) as [e|]; simpl in E;
        injection E as _ <-; simpl; by rewrite ?app_nil_r. }
    rewrite Hl, Ha, <- app_assoc. f_equal.
    unfold numbered. rewrite imap_cons. cbn [omap list_omap].
    change ((λ i t0, (i, t0)) ∘ S) with (λ i (x : string), (S i, x)).
    rewrite (omap_imap_reindex
               (loggedFor' message (attempts w) (t :: l))
               (loggedFor' message
                  (attempts w ++ [publishRequestFor message t]) l)
               l S (λ i, i)).
    + by destruct (loggedFor' _ _ _ _).
    + intros i x. unfold loggedFor. cbn [fst snd].
      rewrite fmap_cons. cbn [take]. by rewrite <- app_assoc.
Qed.

(** X5: for a request to topic "all" the log grows by one entry for
    every catalog topic whose publish gave an error, in catalog order,
    each naming the topic and the error; when no publish fails nothing
    is logged, and a failed publish does not keep the later ones from
    being tried and logged. *)
Theorem fan_out_logs_each_failure (requestBody : string)
    (req : SendMessageRequest) (w : World) :
  bindSendMessageRequest requestBody = Some req →
  reqTopic req = "all" → reqContent req ≠ "" → reqAuthor req ≠ "" →
  logged (sendMessage' requestBody w).2
  = logged w
    ++ omap (loggedFor' (messageOf clock req w) (attempts w) topics)
            (numbered topics).
Proof.
  intros Hb Ht Hc Ha.
  unfold Server.sendMessage. rewrite Hb, Ht.
  rewrite !String_eqb_false by done.
  change (String.eqb "all" "") with false.
  change (String.eqb "all" "all") with true.
  unfold bind, timeNow, ret.
  cbn [orb clockReads attempts logged].
  set (message := {| ID := _ |}).
  set (w2 := {| clockReads := _ |}).
  pose proof (forEach_fanOut_logged message topics w2) as Hlog.
  destruct (forEach topics (fanOutBody' message) w2) as [u w3].
  cbn [fst snd] in *. rewrite Hlog.
  subst message w2. unfold messageOf. by rewrite Ht.
Qed.

(** X6: [getToken] never makes a publish call; its answer has status
    200, 400 or 500; with 400 nothing at all has changed, with 200
    nothing is logged, and with 500 exactly one entry is logged. *)
Theorem getToken_never_publishes (requestBody : string) (w : World) :
  let r := getToken' requestBody w in
  attempts r.2 = attempts w
  ∧ ((status r.1 = StatusBadRequest ∧ r.2 = w)
     ∨ (status r.1 = StatusOK ∧ logged r.2 = logged w)
     ∨ (status r.1 = StatusInternalServerError
        ∧ ∃ e, logged r.2 = logged w ++ [LogFailedToGenerateToken e])).
Proof using Getenv clock SignedString bindTokenRequest.
  unfold Server.getToken.
  destruct (bindTokenRequest requestBody) as [req|];
    [|simpl; split; [done|by left]].
  destruct (String.eqb (User req) ""); [simpl; split; [done|by left]|].
  unfold bind, generateToken, bind, timeNow, ret.
  cbn [clockReads attempts logged].
  destruct (SignedString _ _ _) as [tok|err]; simpl.
  - split; [done|]. right. left. done.
  - split; [done|]. right. right. split; [done|]. by eexists.
Qed.

Lemma Unix_mono (a b : Time) : (a ≤ b)%Z → (Unix a ≤ Unix b)%Z.
Proof. intros H. unfold Unix, Second. apply Z.div_le_mono; lia. Qed.

(** X7: when the clock does not run backwards between the two readings
    [generateToken] takes, the claims it signs give the token at least
    24 hours: exp is at least iat + 86400; and when the readings are
    less than a second apart it is at most iat + 86401. *)
Theorem token_lives_a_day (requestBody : string) (req : TokenRequest)
    (w : World) :
  bindTokenRequest requestBody = Some req → User req ≠ "" →
  (clock (clockReads w) ≤ clock (S (clockReads w)))%Z →
  ∃ (claims : gmap string ClaimValue) (iat exp : Z),
    claims !! "iat" = Some (ClaimInt iat)
    ∧ claims !! "exp" = Some (ClaimInt exp)
    ∧ (iat + 86400 ≤ exp)%Z
    ∧ ((clock (S (clockReads w)) < clock (clockReads w) + Second)%Z →
       (exp ≤ iat + 86401)%Z)
    ∧ (getToken' requestBody w).1
      = match SignedString SigningMethodHS256 claims
                (TokenHMACSecretKey (centrifugoConfig Getenv)) with
        | inl token => JSON StatusOK (TokenResponse token)
        | inr _ =>
          JSON StatusInternalServerError (H_error "Failed to generate token")
        end.
Proof.
  intros Hb Hu Hmono.
  exists (<["sub" := ClaimStr (User req)]>
          (<["iat" := ClaimInt (Unix (clock (clockReads w)))]>
          (<["exp" := ClaimInt
                        (Unix (Add (clock (S (clockReads w))) (24 * Hour)%Z))]>
           ∅))),
    (Unix (clock (clockReads w))),
    (Unix (Add (clock (S (clockReads w))) (24 * Hour)%Z)).
  split; [|split; [|split; [|split]]]; cycle 4.
  - unfold Server.getToken. rewrite Hb, String_eqb_false by done.
    unfold bind, generateToken, bind, timeNow, ret.
    cbn [clockReads attempts logged].
    by destruct (SignedString _ _ _).
  - rewrite lookup_insert_ne by done. by rewrite lookup_insert_eq.
  - rewrite lookup_insert_ne by done. rewrite lookup_insert_ne by done.
    by rewrite lookup_insert_eq.
  - rewrite Unix_Add_24h. pose proof (Unix_mono _ _ Hmono). lia.
  - intros Hlt. rewrite Unix_Add_24h.
    assert (Unix (clock (S (clockReads w)))
            ≤ Unix (clock (clockReads w) + Second))%Z as Hle
      by (apply Unix_mono; lia).
    unfold Unix in *. unfold Second in Hle at 2.
    replace (clock (clockReads w) + 1000000000)%Z
      with (clock (clockReads w) + 1 * Second)%Z in Hle by (unfold Second; lia).
    rewrite Z.div_add in Hle by (unfold Second; lia). lia.
Qed.

Lemma valid_request_not_rejected (requestBody : string)
    (req : SendMessageRequest) (w : World) :
  bindSendMessageRequest requestBody = Some req →
  reqTopic req ≠ "" → reqContent req ≠ "" → reqAuthor req ≠ "" →
  status (sendMessage' requestBody w).1 ≠ StatusBadRequest.
Proof.
  intros Hb Ht Hc Ha.
  unfold Server.sendMessage. rewrite Hb.
  rewrite !String_eqb_false by done.
  unfold bind, timeNow, ret. cbn [orb clockReads attempts logged].
  set (message := {| ID := _ |}).
  set (w2 := {| clockReads := _ |}).
  destruct (String.eqb (reqTopic req) "all").
  - by destruct (forEach topics (fanOutBody' message) w2).
  - unfold publishToCentrifugo. cbn [attempts clockReads logged].
    destruct (publishError _); cbn [fst snd logPrintf]; [done|].
    by destruct (publishError _).
Qed.

Lemma wrap64_small (z : Z) :
  (- 2 ^ 63 ≤ z < 2 ^ 63)%Z → wrap64 z = z.
Proof. intros Hz. unfold wrap64. rewrite Z.mod_small; lia. Qed.

(** X20: the ids of two messages built by [sendMessage] are equal
    exactly when the clock readings taken for them are the same number
    of nanoseconds as an int64; for readings an int64 can hold, exactly
    when the readings are the same.  So requests that read the same
    nanosecond get the same id, and no others do. *)
Theorem message_ids_follow_the_clock (req req' : SendMessageRequest)
    (w w' : World) :
  let t := clock (clockReads w) in
  let t' := clock (clockReads w') in
  (ID (messageOf clock req w) = ID (messageOf clock req' w')
   ↔ UnixNano t = UnixNano t')
  ∧ ((- 2 ^ 63 ≤ t < 2 ^ 63)%Z → (- 2 ^ 63 ≤ t' < 2 ^ 63)%Z →
     (ID (messageOf clock req w) = ID (messageOf clock req' w') ↔ t = t')).
Proof using clock.
  simpl. assert (∀ a b : Z, pretty a = pretty b ↔ a = b) as Hinj
    by (intros a b; split; [apply pretty_Z_inj | by intros ->]).
  split; [apply Hinj|].
  intros Ht Ht'. rewrite Hinj. unfold UnixNano.
  by rewrite !wrap64_small.
Qed.

Lemma all_topic_attempts (requestBody : string) (req : SendMessageRequest)
    (w : World) :
  bindSendMessageRequest requestBody = Some req →
  reqTopic req = "all" → reqContent req ≠ "" → reqAuthor req ≠ "" →
  attempts (sendMessage' requestBody w).2
  = attempts w ++ (publishRequestFor (messageOf clock req w) <$> topics).
Proof.
  intros Hb Ht Hc Ha.
  unfold Server.sendMessage. rewrite Hb, Ht.
  rewrite !String_eqb_false by done.
  change (String.eqb "all" "") with false.
  change (String.eqb "all" "all") with true.
  unfold bind, timeNow, ret.
  cbn [orb clockReads attempts logged].
  set (message := {| ID := _ |}).
  set (w2 := {| clockReads := _ |}).
  pose proof (forEach_fanOut_world broker message topics w2) as [_ Hatt].
  destruct (forEach topics (fanOutBody' message) w2) as [u w3].
  cbn [fst snd] in *. rewrite Hatt.
  subst message w2. unfold messageOf. by rewrite Ht.
Qed.

(** X8: the catalog [getTopics] answers with is the list a request to
    topic "all" is fanned out over: the publish calls of such a request
    go to the channels of exactly the topics of the catalog, in its
    order. *)
Theorem catalog_is_fan_out (requestBody : string)
    (req : SendMessageRequest) (w u : World) (ts : list string) :
  bindSendMessageRequest requestBody = Some req →
  reqTopic req = "all" → reqContent req ≠ "" → reqAuthor req ≠ "" →
  (getTopics u).1 = JSON StatusOK (H_topics ts) →
  channels (drop (length (attempts w))
                 (attempts (sendMessage' requestBody w).2))
  = (λ t, "topic:" +:+ t) <$> ts.
Proof.
  intros Hb Ht Hc Ha [= <-].
  rewrite (all_topic_attempts requestBody req w Hb Ht Hc Ha).
  by rewrite drop_app_length.
Qed.

End RelayFurther.

(** ** Further properties of the client script *)

Section ScriptInvariants.
Import Client Page.

Lemma run_snoc (evs : list Event) (e : Event) (s : State) :
  run (evs ++ [e]) s = step (run evs s) e.
Proof. unfold run. by rewrite foldl_app. Qed.

Lemma run_app (evs evs' : list Event) (s : State) :
  run (evs ++ evs') s = run evs' (run evs s).
Proof. unfold run. by rewrite foldl_app. Qed.

(** The store of subscription objects after [joinTopic]. *)
Lemma joinTopic_handles (t : string) (s : State) :
  let l0 := match subscription s with
            | Some h0 => alter (set_subscribed false) h0 (handles s)
            | None => handles s
            end in
  handles (joinTopic t s)
  = match centrifuge s, connected s with
    | Some c, true =>
      match subscriptions s !! channelOf t with
      | Some h => alter (set_subscribed true) h l0
      | None =>
        l0 ++ [{| channel := channelOf t; client := c;
                  publicationListeners := [t]; subscribed := true |}]
      end
    | _, _ => l0
    end
  ∧ subscription (joinTopic t s)
    = match centrifuge s, connected s with
      | Some c, true =>
        match subscriptions s !! channelOf t with
        | Some h => Some h
        | None => Some (length (handles s))
        end
      | _, _ => subscription s
      end.
Proof.
  unfold joinTopic.
  destruct (subscription s) as [h0|] eqn:Hs; simpl;
    destruct (centrifuge s) as [c|] eqn:Hc; simpl; rewrite ?Hc, ?Hs;
    try done;
    destruct (connected s) eqn:Hconn; simpl; rewrite ?Hc, ?Hconn, ?Hs;
    try done;
    destruct (subscriptions s !! channelOf t) as [h|]; simpl;
    rewrite ?Hc, ?Hconn, ?Hs; try done;
    rewrite ?alter_last; simpl; rewrite ?alter_last; simpl;
    by rewrite ?length_alter.
Qed.

Lemma unsubscribe_current_none (s : State) :
  one_subscribed s →
  Forall (λ o, subscribed o = false)
         match subscription s with
         | Some h0 => alter (set_subscribed false) h0 (handles s)
         | None => handles s
         end.
Proof.
  intros Hone. apply Forall_lookup. intros h o.
  destruct (subscription s) as [h0|] eqn:Hs.
  - rewrite list_lookup_alter. case_decide as Hh.
    + subst h. destruct (handles s !! h0); [|done]. by intros [= <-].
    + intros Ho. destruct (subscribed o) eqn:Hsub; [|done].
      destruct (Hone h o Ho Hsub) as [Hcur _]. congruence.
  - intros Ho. destruct (subscribed o) eqn:Hsub; [|done].
    destruct (Hone h o Ho Hsub) as [Hcur _]. congruence.
Qed.

Lemma joinTopic_one_subscribed (t : string) (s : State) :
  registry_ok s → one_subscribed s → one_subscribed (joinTopic t s).
Proof.
  intros [Hreg _] Hone h o.
  pose proof (unsubscribe_current_none s Hone) as Hnone.
  destruct (joinTopic_handles t s) as [-> ->].
  destruct (joinTopic_frame t s) as (_ & _ & -> & _).
  set (l0 := match subscription s with Some _ => _ | None => _ end) in *.
  assert (∀ i o', l0 !! i = Some o' → subscribed o' = true → False) as Hno.
  { intros i o' Hi Hsub.
    pose proof (Forall_lookup_1 _ _ _ _ Hnone Hi) as Hf. simpl in Hf.
    congruence. }
  assert (∀ i o', l0 !! i = Some o' →
                  ∃ o0, handles s !! i = Some o0 ∧ channel o0 = channel o')
    as Hch.
  { intros i o'. subst l0. destruct (subscription s) as [h0|]; [|by eauto].
    rewrite list_lookup_alter. case_decide as Hi.
    - subst i. destruct (handles s !! h0) as [o0|]; [|done].
      intros [= <-]. by exists o0.
    - by eauto. }
  destruct (centrifuge s) as [c|]; [destruct (connected s)|];
    try (intros Ho Hsub; by destruct (Hno h o Ho Hsub)).
  destruct (subscriptions s !! channelOf t) as [h'|] eqn:Hl.
  - rewrite list_lookup_alter. case_decide as Hh.
    + subst h'. destruct (l0 !! h) as [o'|] eqn:Ho'; [|done].
      intros [= <-] _. split; [done|]. simpl.
      destruct (Hch h o' Ho') as (o0 & Ho0 & <-).
      apply Hreg in Hl as [ls Hw]. unfold wiring in Hw.
      rewrite list_lookup_fmap, Ho0 in Hw. by injection Hw.
    + intros Ho Hsub. by destruct (Hno h o Ho Hsub).
  - intros Ho Hsub.
    destruct (decide (h < length l0)) as [Hlt|Hge].
    + rewrite lookup_app_l in Ho by done. by destruct (Hno h o Ho Hsub).
    + rewrite lookup_app_r in Ho by lia.
      destruct (h - length l0) as [|k] eqn:Hk; simpl in Ho; [|done].
      injection Ho as <-. simpl. split; [|done]. f_equal.
      assert (length l0 = length (handles s)) as Hlen
        by (subst l0; destruct (subscription s); by rewrite ?length_alter).
      lia.
Qed.

(** *** What each function of the script leaves alone *)

Lemma tokenRequests_app (es es' : list Effect) :
  tokenRequests (es ++ es') = tokenRequests es + tokenRequests es'.
Proof. unfold tokenRequests. by rewrite List.filter_app, length_app. Qed.

Ltac count_tokens :=
  rewrite ?tokenRequests_app; unfold tokenRequests; simpl.

Lemma timeoutsSet_app (es es' : list Effect) :
  timeoutsSet (es ++ es') = timeoutsSet es + timeoutsSet es'.
Proof. unfold timeoutsSet. by rewrite List.filter_app, length_app. Qed.

Lemma usernameReaction_quiet (s : State) :
  same_session s (usernameReaction s)
  ∧ same_room s (usernameReaction s)
  ∧ messages (usernameReaction s) = messages s
  ∧ username (usernameReaction s) = username s.
Proof.
  unfold usernameReaction, reconnectWithNewToken, disconnect, onDisconnected,
    same_session, same_room.
  destruct (_ && _); simpl.
  - destruct (centrifuge s) eqn:Hc; simpl; [destruct (live _ _); simpl|];
      count_tokens; rewrite ?Hc; repeat split; (done || lia).
  - by destruct (String.eqb _ _).
Qed.

(** After the reactive statement the name applied last is the name in
    the field, unless the field is empty. *)
Lemma usernameReaction_identity (s : State) :
  username (usernameReaction s) = previousUsername (usernameReaction s)
  ∨ username (usernameReaction s) = "".
Proof.
  unfold usernameReaction, reconnectWithNewToken, disconnect, onDisconnected.
  destruct (String.eqb (username s) "") eqn:E1; simpl.
  { right. apply String.eqb_eq in E1.
    destruct (String.eqb (previousUsername s) ""); simpl; done. }
  destruct (String.eqb (username s) (previousUsername s)) eqn:E2; simpl.
  { left. apply String.eqb_eq in E2.
    destruct (String.eqb (previousUsername s) ""); simpl; done. }
  destruct (String.eqb (previousUsername s) "") eqn:E3; simpl.
  - by left.
  - left. destruct (centrifuge s); simpl; [by destruct (live _ _)|done].
Qed.

Lemma getTokenAndConnect_resume_quiet (r : FetchResult) (s : State) :
  same_room s (getTokenAndConnect_resume r s)
  ∧ same_identity s (getTokenAndConnect_resume r s)
  ∧ messages (getTokenAndConnect_resume r s) = messages s
  ∧ centrifuge (getTokenAndConnect_resume r s) = Some (length (clients s))
  ∧ length (clients (getTokenAndConnect_resume r s)) = S (length (clients s))
  ∧ pendingTokenFetches (getTokenAndConnect_resume r s)
    = pendingTokenFetches s
  ∧ tokenRequests (effects (getTokenAndConnect_resume r s))
    = tokenRequests (effects s).
Proof.
  unfold same_room, same_identity.
  destruct r as [|[] []]; simpl; unfold connect; simpl;
    destruct (live _ _); simpl;
    rewrite ?length_app; count_tokens; repeat split; (done || lia).
Qed.

Lemma onMount_resume_quiet loaded n (s : State) :
  same_room s (onMount_resume loaded n s)
  ∧ messages (onMount_resume loaded n s) = messages s
  ∧ centrifuge (onMount_resume loaded n s) = centrifuge s
  ∧ clients (onMount_resume loaded n s) = clients s
  ∧ pendingTokenFetches (onMount_resume loaded n s)
    = S (pendingTokenFetches s)
  ∧ tokenRequests (effects (onMount_resume loaded n s))
    = S (tokenRequests (effects s)).
Proof.
  unfold onMount_resume, same_room. set (s1 := initializeCentrifugo _).
  destruct (usernameReaction_quiet s1)
    as ((-> & -> & -> & ->) & (-> & -> & ->) & -> & _).
  subst s1.
  destruct loaded; simpl; count_tokens;
    repeat split; (done || lia).
Qed.

Lemma publicationListeners_quiet (message : Message) (ts : list string) :
  ∀ s : State,
  let s' := foldl (λ s t, publicationListener t message s) s ts in
  same_session s s' ∧ same_room s s' ∧ same_identity s s'.
Proof.
  unfold same_session, same_room, same_identity.
  induction ts as [|t ts IH]; intros s; simpl; [done|].
  destruct (IH (publicationListener t message s))
    as ((-> & -> & -> & ->) & (-> & -> & ->) & -> & ->).
  unfold publicationListener.
  destruct (String.eqb _ _); simpl; count_tokens;
    repeat split; (done || lia).
Qed.

Lemma joinTopic_session (t : string) (s : State) :
  same_session s (joinTopic t s).
Proof.
  destruct (joinTopic_frame t s) as (Hc & _ & _ & _ & _ & _ & Hcl & _ & Hp).
  unfold same_session. repeat split; try done.
  unfold joinTopic.
  destruct (subscription s) as [h0|]; simpl;
    destruct (centrifuge s) as [c|] eqn:Hcs; simpl; rewrite ?Hcs;
    destruct (connected s) eqn:Hconn; simpl; rewrite ?Hcs, ?Hconn;
    destruct (subscriptions s !! channelOf t) as [h|]; simpl;
    rewrite ?Hcs, ?Hconn; simpl; count_tokens; lia.
Qed.

(** *** At most one subscription is subscribed *)

Lemma one_subscribed_room (s s' : State) :
  same_room s s' → one_subscribed s → one_subscribed s'.
Proof.
  intros (Ht & Hs & Hh) Hone h o. rewrite Ht, Hs, Hh. apply Hone.
Qed.

Lemma registry_ok_same (s s' : State) :
  subscriptions s' = subscriptions s → handles s' = handles s →
  registry_ok s → registry_ok s'.
Proof.
  intros Hs Hh. unfold registry_ok, wiring. by rewrite Hs, Hh.
Qed.

Lemma step_one_subscribed (s : State) (e : Event) :
  registry_ok s → one_subscribed s → one_subscribed (step s e).
Proof.
  intros Hok Hone.
  destruct e as [loaded n|u|t| |r|c|c|h message]; simpl.
  - destruct (pendingTopicsFetch s); [|done].
    destruct (onMount_resume_quiet loaded n (set_pendingTopicsFetch false s))
      as [Hroom _].
    by apply (one_subscribed_room (set_pendingTopicsFetch false s)).
  - destruct (usernameReaction_quiet (set_username u s)) as (_ & Hroom & _).
    by apply (one_subscribed_room (set_username u s)).
  - by apply joinTopic_one_subscribed.
  - by destruct (timers s).
  - destruct (pendingTokenFetches s) as [|k]; [done|].
    destruct (getTokenAndConnect_resume_quiet r (set_pendingTokenFetches k s))
      as [Hroom _].
    by apply (one_subscribed_room (set_pendingTokenFetches k s)).
  - destruct (clients s !! c) as [o|]; [|done].
    destruct (live s c); [|done].
    unfold onConnected. apply joinTopic_one_subscribed.
    + by apply (registry_ok_same s).
    + done.
  - destruct (clients s !! c); [|done]. by destruct (live s c).
  - destruct (handles s !! h) as [o|]; [|done].
    destruct (publicationListeners_quiet message (publicationListeners o) s)
      as (_ & Hroom & _).
    by apply (one_subscribed_room s).
Qed.

Lemma run_one_subscribed (evs : list Event) :
  ∀ s, registry_ok s → one_subscribed s →
       registry_ok (run evs s) ∧ one_subscribed (run evs s).
Proof.
  induction evs as [|e evs IH]; intros s Hok Hone; [done|].
  apply IH.
  - eapply grows_registry_ok; [done|apply step_grows].
  - by apply step_one_subscribed.
Qed.

(** X9: in every state the script can reach, a subscription object on
    which [subscribe()] was called last is the current [subscription]
    and is the object of the channel of the current topic; so at most
    one subscription object is subscribed at a time. *)
Theorem at_most_one_subscribed (evs : list Event) (h : nat)
    (o : Subscription) :
  let s := run evs init in
  handles s !! h = Some o → subscribed o = true →
  subscription s = Some h ∧ channel o = channelOf (currentTopic s).
Proof.
  intros s.
  assert (one_subscribed init) as Hinit by (intros h' o'; done).
  destruct (run_one_subscribed evs init init_registry_ok Hinit) as [_ H].
  apply H.
Qed.

(** *** Clients and token requests *)

Lemma step_session (s : State) (e : Event) :
  newest_client s ∧
  tokenRequests (effects s) = pendingTokenFetches s + length (clients s) →
  newest_client (step s e) ∧
  tokenRequests (effects (step s e))
  = pendingTokenFetches (step s e) + length (clients (step s e)).
Proof.
  unfold newest_client. intros [Hnew Hcount].
  assert (∀ s0 s', same_session s0 s' →
            centrifuge s0 = centrifuge s → clients s0 = clients s →
            pendingTokenFetches s0 = pendingTokenFetches s →
            tokenRequests (effects s0) = tokenRequests (effects s) →
            match centrifuge s' with
            | Some c => length (clients s') = S c
            | None => clients s' = []
            end
            ∧ tokenRequests (effects s')
              = pendingTokenFetches s' + length (clients s')) as Hsame.
  { intros s0 s' (-> & -> & -> & ->) -> -> -> ->. done. }
  destruct e as [loaded n|u|t| |r|c|c|h message]; simpl.
  - destruct (pendingTopicsFetch s); [|done].
    destruct (onMount_resume_quiet loaded n (set_pendingTopicsFetch false s))
      as (_ & _ & -> & -> & -> & ->).
    simpl. split; [done|lia].
  - destruct (usernameReaction_quiet (set_username u s)) as (Hs & _).
    by apply (Hsame (set_username u s)).
  - apply (Hsame s); [apply joinTopic_session|done..].
  - destruct (timers s); [done|]. simpl. split; [done|].
    count_tokens. unfold tokenRequests in Hcount. lia.
  - destruct (pendingTokenFetches s) as [|k] eqn:Hp; [by rewrite Hp|].
    destruct (getTokenAndConnect_resume_quiet r (set_pendingTokenFetches k s))
      as (_ & _ & _ & -> & -> & -> & ->).
    simpl. split; [done|lia].
  - destruct (clients s !! c) as [o|]; [|done].
    destruct (live s c); [|done].
    unfold onConnected.
    eapply Hsame; [apply joinTopic_session|done|done|done|].
    simpl. count_tokens. lia.
  - destruct (clients s !! c); [|done].
    destruct (live s c); [|done]. simpl. split; [done|].
    count_tokens. unfold tokenRequests in Hcount. lia.
  - destruct (handles s !! h) as [o|]; [|done].
    destruct (publicationListeners_quiet message (publicationListeners o) s)
      as (Hs & _).
    by apply (Hsame s).
Qed.

Lemma run_session (evs : list Event) :
  ∀ s,
  newest_client s ∧
  tokenRequests (effects s) = pendingTokenFetches s + length (clients s) →
  newest_client (run evs s) ∧
  tokenRequests (effects (run evs s))
  = pendingTokenFetches (run evs s) + length (clients (run evs s)).
Proof.
  induction evs as [|e evs IH]; intros s Hs; [done|].
  apply IH. by apply step_session.
Qed.

(** X10: in every state the script can reach, the current client is the
    client made last: [centrifuge] is empty only as long as no client
    was made, and otherwise holds the newest one. *)
Theorem current_client_is_newest (evs : list Event) :
  let s := run evs init in
  match centrifuge s with
  | Some c => length (clients s) = S c
  | None => clients s = []
  end.
Proof.
  intros s. by destruct (run_session evs init) as [H _].
Qed.

(** X11: in every state the script can reach, every token request has
    either not settled yet or has given exactly one client, with or
    without token: the number of token requests made is the number of
    requests under way plus the number of clients made. *)
Theorem every_token_request_gives_a_client (evs : list Event) :
  let s := run evs init in
  tokenRequests (effects s) = pendingTokenFetches s + length (clients s).
Proof.
  intros s. by destruct (run_session evs init) as [_ H].
Qed.

(** *** The message log *)

Lemma joinTopic_messages (t : string) (s : State) :
  messages (joinTopic t s) = [].
Proof. by destruct (joinTopic_frame t s) as (_ & _ & _ & -> & _). Qed.

(** What one turn does to the message log: it keeps it, empties it, or
    (only in a delivery) adds the delivered message at its end. *)
Lemma step_messages (s : State) (e : Event) :
  registry_ok s →
  messages (step s e) = messages s
  ∨ messages (step s e) = []
  ∨ ∃ h m, e = EvPublication h m ∧ messages (step s e) = messages s ++ [m].
Proof.
  intros Hok.
  destruct e as [loaded n|u|t| |r|c|c|h message].
  - left. simpl. destruct (pendingTopicsFetch s); [|done].
    by destruct (onMount_resume_quiet loaded n (set_pendingTopicsFetch false s))
      as (_ & -> & _).
  - left. simpl.
    by destruct (usernameReaction_quiet (set_username u s))
      as (_ & _ & -> & _).
  - right. left. apply joinTopic_messages.
  - left. simpl. by destruct (timers s).
  - left. simpl. destruct (pendingTokenFetches s) as [|k]; [done|].
    by destruct (getTokenAndConnect_resume_quiet r
                   (set_pendingTokenFetches k s)) as (_ & _ & -> & _).
  - simpl. destruct (clients s !! c) as [o|]; [|by left].
    destruct (live s c); [|by left].
    right. left. apply joinTopic_messages.
  - left. simpl. destruct (clients s !! c); [|done].
    by destruct (live s c).
  - destruct (handles s !! h) as [o|] eqn:Hh.
    + rewrite (publication_step s h o) by done.
      destruct (onCurrentChannel s h); [|by left].
      right. right. by exists h, message.
    + left. by rewrite step_missing_handle.
Qed.

(** X12: the message log never holds anything that was not delivered:
    after any run of events it is a subsequence of the messages the
    run delivered, in the order of delivery. *)
Theorem log_holds_only_delivered (evs : list Event) :
  messages (run evs init) `sublist_of` delivered evs.
Proof.
  induction evs as [|e evs IH] using rev_ind; [done|].
  rewrite run_snoc. unfold delivered. rewrite omap_app.
  fold (delivered evs).
  assert (registry_ok (run evs init)) as Hok
    by apply run_registry_ok, init_registry_ok.
  destruct (step_messages (run evs init) e Hok)
    as [-> | [-> | (h & m & -> & ->)]].
  - by apply sublist_inserts_r.
  - apply sublist_nil_l.
  - by apply sublist_app.
Qed.

(** *** The user name *)

Lemma step_identity (s : State) (e : Event) :
  username s = previousUsername s ∨ username s = "" →
  username (step s e) = previousUsername (step s e)
  ∨ username (step s e) = "".
Proof.
  intros Hid.
  destruct e as [loaded n|u|t| |r|c|c|h message]; simpl.
  - destruct (pendingTopicsFetch s); [|done].
    unfold onMount_resume. apply usernameReaction_identity.
  - apply usernameReaction_identity.
  - by destruct (joinTopic_frame t s) as (_ & _ & _ & _ & -> & -> & _).
  - by destruct (timers s).
  - destruct (pendingTokenFetches s) as [|k]; [done|].
    by destruct (getTokenAndConnect_resume_quiet r
                   (set_pendingTokenFetches k s)) as (_ & (-> & ->) & _).
  - destruct (clients s !! c) as [o|]; [|done].
    destruct (live s c); [|done].
    unfold onConnected. set (s' := emit _ _).
    by destruct (joinTopic_frame (currentTopic s') s')
      as (_ & _ & _ & _ & -> & -> & _).
  - destruct (clients s !! c); [|done]. by destruct (live s c).
  - destruct (handles s !! h) as [o|]; [|done].
    by destruct (publicationListeners_quiet message (publicationListeners o) s)
      as (_ & _ & -> & ->).
Qed.

(** X13: in every state the script can reach, the name applied last
    ([previousUsername]) is the name in the field ([username]) unless
    the field is empty: no non-empty name stays unapplied. *)
Theorem applied_name_follows_the_field (evs : list Event) :
  let s := run evs init in
  username s = previousUsername s ∨ username s = "".
Proof.
  induction evs as [|e evs IH] using rev_ind; [by left|].
  simpl. rewrite run_snoc. by apply step_identity.
Qed.

(** *** Subscription objects stay what they were made *)

Lemma made_alter_subscribed (b : bool) (h : nat) (l : list Subscription) :
  made <$> alter (set_subscribed b) h l = made <$> l.
Proof.
  rewrite (list_fmap_alter made (set_subscribed b) (λ w, w)).
  - by apply list_alter_id.
  - by apply Forall_forall.
Qed.

(** One turn keeps every subscription object as it was made, and a new
    one is made, if at all, by the current client. *)
Lemma step_made (s : State) (e : Event) :
  made <$> handles (step s e) = made <$> handles s
  ∨ ∃ t c, centrifuge s = Some c
           ∧ made <$> handles (step s e)
             = (made <$> handles s) ++ [(channelOf t, c, [t])].
Proof.
  assert (∀ t s0, handles s0 = handles s → centrifuge s0 = centrifuge s →
            made <$> handles (joinTopic t s0) = made <$> handles s
            ∨ ∃ t' c, centrifuge s = Some c
                      ∧ made <$> handles (joinTopic t s0)
                        = (made <$> handles s) ++ [(channelOf t', c, [t'])])
    as Hjoin.
  { intros t s0 Hh Hc. destruct (joinTopic_handles t s0) as [-> _].
    rewrite Hh, Hc.
    assert (made <$> match subscription s0 with
                     | Some h0 => alter (set_subscribed false) h0 (handles s)
                     | None => handles s
                     end = made <$> handles s) as Hl0
      by (destruct (subscription s0); by rewrite ?made_alter_subscribed).
    destruct (centrifuge s) as [c|]; [destruct (connected s0)|];
      try (by left).
    destruct (subscriptions s0 !! channelOf t) as [h|].
    - left. by rewrite made_alter_subscribed.
    - right. exists t, c. split; [done|]. by rewrite fmap_app, Hl0. }
  destruct e as [loaded n|u|t| |r|c|c|h message]; simpl.
  - left. destruct (pendingTopicsFetch s); [|done].
    by destruct (onMount_resume_quiet loaded n (set_pendingTopicsFetch false s))
      as ((_ & _ & ->) & _).
  - left. by destruct (usernameReaction_quiet (set_username u s))
      as (_ & (_ & _ & ->) & _).
  - by apply Hjoin.
  - left. by destruct (timers s).
  - left. destruct (pendingTokenFetches s) as [|k]; [done|].
    by destruct (getTokenAndConnect_resume_quiet r
                   (set_pendingTokenFetches k s)) as ((_ & _ & ->) & _).
  - destruct (clients s !! c) as [o|]; [|by left].
    destruct (live s c); [|by left].
    unfold onConnected. by apply Hjoin.
  - left. destruct (clients s !! c); [|done]. by destruct (live s c).
  - left. destruct (handles s !! h) as [o|]; [|done].
    by destruct (publicationListeners_quiet message (publicationListeners o) s)
      as (_ & (_ & _ & ->) & _).
Qed.

Lemma run_made (evs : list Event) :
  ∀ s, (made <$> handles s) `prefix_of` (made <$> handles (run evs s)).
Proof.
  induction evs as [|e evs IH]; intros s; [done|].
  etrans; [|apply IH].
  destruct (step_made s e) as [-> | (t & c & _ & ->)]; [done|].
  by apply prefix_app_r.
Qed.

Lemma run_lookup (evs : list Event) :
  ∀ s ch h, subscriptions s !! ch = Some h →
            subscriptions (run evs s) !! ch = Some h.
Proof.
  induction evs as [|e evs IH]; intros s ch h Hl; [done|].
  apply IH. eapply grows_lookup; [apply step_grows|done].
Qed.

(** X14: once a channel has its subscription object, every later state
    has the same object entered for that channel, and the object still
    has the channel, the listeners and the client it was made with,
    whatever clients were made since; and a turn that makes a new
    subscription object makes it with the client that is current. *)
Theorem subscription_objects_stay_with_their_client (s : State)
    (evs : list Event) (ch : string) (h : nat) (o : Subscription) :
  subscriptions s !! ch = Some h → handles s !! h = Some o →
  (subscriptions (run evs s) !! ch = Some h
   ∧ ∃ o', handles (run evs s) !! h = Some o'
           ∧ channel o' = channel o
           ∧ client o' = client o
           ∧ publicationListeners o' = publicationListeners o)
  ∧ ∀ e h' o',
      handles (run evs s) !! h' = None →
      handles (step (run evs s) e) !! h' = Some o' →
      centrifuge (run evs s) = Some (client o').
Proof.
  intros Hreg Hh. split; [split|].
  - by apply run_lookup.
  - destruct (run_made evs s) as [k Hk].
    assert ((made <$> handles (run evs s)) !! h = Some (made o)) as Hm
      by (rewrite Hk; apply lookup_app_l_Some; by rewrite list_lookup_fmap, Hh).
    rewrite list_lookup_fmap in Hm.
    destruct (handles (run evs s) !! h) as [o'|]; [|done].
    exists o'. by injection Hm as -> -> ->.
  - intros e h' o' Hnone Hsome. set (s' := run evs s) in *.
    assert ((made <$> handles (step s' e)) !! h' = Some (made o')) as Hm
      by (by rewrite list_lookup_fmap, Hsome).
    destruct (step_made s' e) as [Heq | (t & c & Hc & Heq)];
      rewrite Heq in Hm.
    + by rewrite list_lookup_fmap, Hnone in Hm.
    + apply lookup_ge_None in Hnone.
      rewrite lookup_app_r in Hm by (by rewrite length_fmap).
      destruct (h' - length (made <$> handles s')) as [|k]; simpl in Hm;
        [|done].
      injection Hm as _ <- _. done.
Qed.

(** *** Timers and token requests *)

Ltac count_effects :=
  rewrite ?tokenRequests_app, ?timeoutsSet_app;
  unfold tokenRequests, timeoutsSet; simpl.

Lemma joinTopic_timing (t : string) (s : State) :
  timers (joinTopic t s) = timers s
  ∧ pendingTopicsFetch (joinTopic t s) = pendingTopicsFetch s
  ∧ timeoutsSet (effects (joinTopic t s)) = timeoutsSet (effects s)
  ∧ tokenRequests (effects (joinTopic t s)) = tokenRequests (effects s).
Proof.
  destruct (joinTopic_session t s) as (_ & _ & _ & Htok).
  destruct (joinTopic_frame t s) as (_ & _ & _ & _ & _ & _ & _ & Ht & _).
  repeat split; try done; unfold joinTopic;
    destruct (subscription s) as [h0|]; simpl;
    destruct (centrifuge s) as [c|] eqn:Hcs; simpl; rewrite ?Hcs;
    destruct (connected s) eqn:Hconn; simpl; rewrite ?Hcs, ?Hconn;
    destruct (subscriptions s !! channelOf t) as [h|]; simpl;
    rewrite ?Hcs, ?Hconn; simpl; count_effects; (done || lia).
Qed.

Lemma usernameReaction_timing (s : State) :
  pendingTopicsFetch (usernameReaction s) = pendingTopicsFetch s
  ∧ tokenRequests (effects (usernameReaction s)) = tokenRequests (effects s)
  ∧ ((timers (usernameReaction s) = timers s
      ∧ timeoutsSet (effects (usernameReaction s)) = timeoutsSet (effects s))
     ∨ (timers (usernameReaction s) = timers s ++ [500]
        ∧ timeoutsSet (effects (usernameReaction s))
          = S (timeoutsSet (effects s)))).
Proof.
  unfold usernameReaction, reconnectWithNewToken, disconnect, onDisconnected.
  destruct (_ && _); simpl.
  - destruct (centrifuge s); simpl; [destruct (live _ _); simpl|];
      count_effects;
      repeat split; try lia; right; split; (done || lia).
  - destruct (String.eqb _ _); simpl; repeat split; try done; by left.
Qed.

Lemma publicationListeners_timing (message : Message) (ts : list string) :
  ∀ s : State,
  let s' := foldl (λ s t, publicationListener t message s) s ts in
  timers s' = timers s
  ∧ pendingTopicsFetch s' = pendingTopicsFetch s
  ∧ timeoutsSet (effects s') = timeoutsSet (effects s)
  ∧ tokenRequests (effects s') = tokenRequests (effects s).
Proof.
  induction ts as [|t ts IH]; intros s; simpl; [done|].
  destruct (IH (publicationListener t message s)) as (-> & -> & -> & ->).
  unfold publicationListener.
  destruct (String.eqb _ _); simpl; count_effects; repeat split; (done || lia).
Qed.

Lemma step_timers (s : State) (e : Event) :
  timers_account s ∧ Forall (λ d, d = 500) (timers s) →
  timers_account (step s e) ∧ Forall (λ d, d = 500) (timers (step s e)).
Proof.
  unfold timers_account. intros [Hacc Hall].
  assert (∀ s0,
            pendingTopicsFetch s0 = pendingTopicsFetch s →
            timers s0 = timers s →
            timeoutsSet (effects s0) = timeoutsSet (effects s) →
            tokenRequests (effects s0) = tokenRequests (effects s) →
            (timeoutsSet (effects (usernameReaction s0))
             + (if pendingTopicsFetch (usernameReaction s0) then 0 else 1)
             = length (timers (usernameReaction s0))
               + tokenRequests (effects (usernameReaction s0)))
            ∧ Forall (λ d, d = 500) (timers (usernameReaction s0)))
    as Hreact.
  { intros s0 Hp Ht Hts Htok.
    destruct (usernameReaction_timing s0)
      as (-> & -> & [[-> ->] | [-> ->]]); rewrite Hp, Ht, Hts, Htok.
    - done.
    - rewrite length_app. simpl. split; [lia|].
      apply Forall_app. split; [done|]. by apply Forall_singleton. }
  destruct e as [loaded n|u|t| |r|c|c|h message]; simpl.
  - destruct (pendingTopicsFetch s) eqn:Hp; [|by rewrite Hp].
    unfold onMount_resume. set (s1 := initializeCentrifugo _).
    destruct (usernameReaction_timing s1)
      as (-> & -> & [[-> ->] | [-> ->]]); subst s1;
      destruct loaded; simpl; count_effects;
      unfold tokenRequests, timeoutsSet in Hacc;
      rewrite ?length_app; simpl;
      (split; [lia|]); rewrite ?Forall_app; try done;
      split; try done; by apply Forall_singleton.
  - by apply (Hreact (set_username u s)).
  - by destruct (joinTopic_timing t s) as (-> & -> & -> & ->).
  - destruct (timers s) as [|d rest] eqn:Ht; [by rewrite Ht|]. simpl.
    count_effects. unfold tokenRequests, timeoutsSet in Hacc.
    simpl in Hacc. split; [lia|]. by apply Forall_cons in Hall as [_ ?].
  - destruct (pendingTokenFetches s) as [|k]; [done|].
    destruct r as [|[] []]; simpl; unfold connect; simpl;
      destruct (live _ _); simpl; count_effects;
      unfold tokenRequests, timeoutsSet in Hacc; split; (done || lia).
  - destruct (clients s !! c) as [o|]; [|done].
    destruct (live s c); [|done].
    unfold onConnected. set (s' := emit _ _).
    destruct (joinTopic_timing (currentTopic s') s') as (-> & -> & -> & ->).
    subst s'. simpl. count_effects.
    unfold tokenRequests, timeoutsSet in Hacc. split; (done || lia).
  - destruct (clients s !! c); [|done].
    destruct (live s c); [|done]. simpl. count_effects.
    unfold tokenRequests, timeoutsSet in Hacc. split; (done || lia).
  - destruct (handles s !! h) as [o|]; [|done].
    by destruct (publicationListeners_timing message
                   (publicationListeners o) s) as (-> & -> & -> & ->).
Qed.

(** X21: in every state the script can reach, every timer that waits
    was set for 500 ms, and token requests and timers are in step: the
    token requests made are the one of [onMount] (once its topics
    request has settled) and one for every timer that has fired, so
    the timers set, plus one after mounting, are the timers waiting
    plus the token requests made. *)
Theorem every_timer_gives_one_token_request (evs : list Event) :
  let s := run evs init in
  Forall (λ d, d = 500) (timers s)
  ∧ timeoutsSet (effects s) + (if pendingTopicsFetch s then 0 else 1)
    = length (timers s) + tokenRequests (effects s).
Proof.
  simpl.
  assert (timers_account (run evs init)
          ∧ Forall (λ d, d = 500) (timers (run evs init))) as [H1 H2].
  { induction evs as [|e evs IH] using rev_ind; [by split|].
    rewrite run_snoc. by apply step_timers. }
  done.
Qed.

End ScriptInvariants.

(** ** Properties of sending and of teardown *)

Section PageProperties.
Import Client Page.

Variable trim : string → string.

Abbreviation sendMessage' := (Page.sendMessage trim).
Abbreviation pageStep' := (pageStep trim).
Abbreviation pageRun' := (pageRun trim).

(** *** Teardown *)

Lemma unsubscribe_all (l : list nat) (s : State) :
  let s' := foldl (λ s sub, unsubscribe sub s) s l in
  centrifuge s' = centrifuge s
  ∧ subscriptions s' = subscriptions s
  ∧ length (handles s') = length (handles s)
  ∧ clientStates s' = clientStates s
  ∧ connected s' = connected s
  ∧ effects s' = effects s ++ (Unsubscribe <$> l)
  ∧ ∀ h o, handles s' !! h = Some o → h ∈ l → subscribed o = false.
Proof.
  induction l as [|x l IH] using rev_ind; simpl.
  - rewrite app_nil_r. repeat split; try done.
    intros h o _ Hin. by apply elem_of_nil in Hin.
  - rewrite foldl_app. simpl.
    destruct IH as (Hc & Hs & Hlen & Hst & Hconn & Heff & Hall).
    repeat split; try done.
    + by rewrite length_alter.
    + by rewrite Heff, fmap_app, app_assoc.
    + intros h o. rewrite list_lookup_alter. case_decide as Hx.
      * subst x. destruct (handles _ !! h); [|done]. by intros [= <-].
      * intros Ho [Hin|Hin]%elem_of_app; [by eapply Hall|].
        apply list_elem_of_singleton in Hin. congruence.
Qed.

Lemma disconnect_room (c : nat) (s : State) :
  handles (disconnect c s) = handles s
  ∧ subscriptions (disconnect c s) = subscriptions s.
Proof.
  unfold disconnect, onDisconnected. by destruct (live _ _).
Qed.

Lemma registered_in_objectValues (s : State) (h : nat) (o : Subscription) :
  registry_ok s → handles s !! h = Some o →
  h ∈ objectValues (subscriptions s).
Proof.
  intros [Hreg _] Hh. unfold objectValues.
  rewrite merge_sort_Permutation.
  apply list_elem_of_fmap. exists (channel o, h). split; [done|].
  apply elem_of_map_to_list, Hreg.
  exists (publicationListeners o). unfold wiring.
  by rewrite list_lookup_fmap, Hh.
Qed.

(** X15: when the page is destroyed in a state the script can reach,
    [unsubscribe()] is called once on every entry of the registry, so
    that it has been called last on every subscription object there
    is; none is removed from the store or the registry; and, if there
    is a current client, [disconnect()] is called on it after the
    unsubscribes: the client is disconnected afterwards, and if it was
    connecting or connected its 'disconnected' listener has run inside
    the call, so [connected] is false and the listener's line is the
    last thing logged. *)
Theorem teardown_unsubscribes_everything (evs : list Event) :
  let s := run evs init in
  let s' := onDestroy s in
  (∀ h o, handles s' !! h = Some o → subscribed o = false)
  ∧ length (handles s') = length (handles s)
  ∧ subscriptions s' = subscriptions s
  ∧ (∀ c, centrifuge s = Some c →
       live s' c = false
       ∧ (live s c = true → connected s' = false)
       ∧ effects s'
         = effects s
           ++ (Unsubscribe <$> objectValues (subscriptions s))
           ++ Disconnect c
              :: (if live s c
                  then [ConsoleLog "Disconnected from Centrifugo"]
                  else [])).
Proof.
  intros s s'.
  assert (registry_ok s) as Hok by apply run_registry_ok, init_registry_ok.
  pose proof (unsubscribe_all (objectValues (subscriptions s)) s)
    as (Hc & Hs & Hlen & Hst & Hconn & Heff & Hall).
  subst s'. unfold onDestroy.
  set (s1 := foldl _ s _) in *.
  assert (∀ h o, handles s1 !! h = Some o → subscribed o = false) as Hunsub.
  { intros h o Ho. apply (Hall h o Ho).
    assert (h < length (handles s)) as Hlt
      by (rewrite <- Hlen; by eapply lookup_lt_Some).
    apply lookup_lt_is_Some in Hlt as [o0 Ho0].
    by eapply registered_in_objectValues. }
  assert (∀ c, live s1 c = live s c) as Hlive
    by (intros c; unfold live; by rewrite Hst).
  rewrite Hc. destruct (centrifuge s) as [c|]; [|repeat split; done].
  destruct (disconnect_room c s1) as [-> ->].
  destruct (disconnect_spec c s1) as (He & Hcd & Hld & _).
  split; [done|split; [done|split; [done|]]].
  intros c' [= <-]. rewrite He, Hcd, Hld, Hlive, Heff, <- app_assoc.
  repeat split; try done. by intros ->.
Qed.

(** *** Sending *)

(** X16: pressing a key sends only for Enter without Shift, and a send,
    by key or by button, posts exactly when the trimmed draft and the
    trimmed user name are non-empty and the script is connected: then
    one request is posted with the current topic, the trimmed draft and
    the trimmed name; otherwise the page stays exactly as it is. *)
Theorem send_posts_only_when_ready (p : Page) (key : string)
    (shiftKey : bool) :
  (handleKeyPress trim key shiftKey p ≠ p → key = "Enter" ∧ shiftKey = false)
  ∧ (trim (newMessage p) = "" ∨ trim (username (script p)) = ""
     ∨ connected (script p) = false →
     sendMessage' p = p)
  ∧ (trim (newMessage p) ≠ "" → trim (username (script p)) ≠ "" →
     connected (script p) = true →
     outside (sendMessage' p)
     = outside p
       ++ [PostMessages {| post_topic := currentTopic (script p);
                           post_content := trim (newMessage p);
                           post_author := trim (username (script p)) |}]
     ∧ newMessage (sendMessage' p) = newMessage p
     ∧ script (sendMessage' p) = script p).
Proof.
  split; [|split].
  - unfold handleKeyPress.
    destruct (String.eqb key "Enter") eqn:E; [|done].
    apply String.eqb_eq in E. destruct shiftKey; simpl; [done|]. by intros _.
  - unfold Page.sendMessage. intros [-> | [-> | ->]]; simpl;
      by rewrite ?orb_true_r.
  - intros Hm Hu Hc. unfold Page.sendMessage.
    by rewrite !String_eqb_false, Hc by done.
Qed.

Lemma posted_app (out out' : list Outside) (p : Page) :
  outside p = out ++ out' →
  posted p
  = omap (λ o, match o with PostMessages b => Some b | _ => None end) out
    ++ omap (λ o, match o with PostMessages b => Some b | _ => None end) out'.
Proof. intros H. unfold posted. by rewrite H, omap_app. Qed.

(** What one turn adds to the bodies posted: nothing, or one body whose
    content and author are not empty. *)
Lemma pageStep_posted (p : Page) (e : PageEvent) :
  posted (pageStep' p e) = posted p
  ∨ ∃ b, posted (pageStep' p e) = posted p ++ [b]
         ∧ post_content b ≠ "" ∧ post_author b ≠ "".
Proof.
  assert (posted (sendMessage' p) = posted p
          ∨ ∃ b, posted (sendMessage' p) = posted p ++ [b]
                 ∧ post_content b ≠ "" ∧ post_author b ≠ "") as Hsend.
  { unfold Page.sendMessage.
    destruct (String.eqb (trim (newMessage p)) "") eqn:E1; [by left|].
    destruct (String.eqb (trim (username (script p))) "") eqn:E2; [by left|].
    destruct (connected (script p)); [|by left]. simpl.
    right. eexists. split.
    - unfold posted. simpl. by rewrite omap_app.
    - simpl. split; by apply String.eqb_neq. }
  destruct e as [e|text|key shiftKey| |r a|resolved|]; simpl; try by left.
  - unfold handleKeyPress. by destruct (_ && _); [|left].
  - done.
  - destruct (pendingPosts p) as [|n]; [by left|]. left.
    unfold sendMessage_afterPost, posted.
    destruct r as [|[]]; simpl; try done;
      destruct (subscription (script p)); simpl;
      rewrite !omap_app; simpl; by rewrite !app_nil_r.
  - destruct (pendingPublishes p) as [|n]; [by left|]. left.
    unfold sendMessage_afterPublish, posted.
    destruct resolved; simpl; [done|].
    rewrite omap_app. simpl. by rewrite app_nil_r.
Qed.

Lemma pageRun_posted (evs : list PageEvent) :
  Forall (λ b, post_content b ≠ "" ∧ post_author b ≠ "")
         (posted (pageRun' evs start)).
Proof.
  induction evs as [|e evs IH] using rev_ind; [by apply Forall_nil|].
  unfold pageRun. rewrite foldl_app. simpl. fold (pageRun' evs start).
  destruct (pageStep_posted (pageRun' evs start) e) as [-> | (b & -> & Hb)];
    [done|].
  apply Forall_app. split; [done|]. by apply Forall_singleton.
Qed.

(** X17: whatever [trim] is and whatever happens on the page, every body
    the page posts to /api/messages has a non-empty content and a
    non-empty author; so the relay, given such a body with a non-empty
    topic, never answers it with status 400. *)
Theorem posted_bodies_pass_the_relay_check (evs : list PageEvent)
    (b : PostBody) :
  b ∈ posted (pageRun' evs start) →
  (post_content b ≠ "" ∧ post_author b ≠ "")
  ∧ ∀ clock broker bindSendMessageRequest requestBody w,
      bindSendMessageRequest requestBody = Some (asRequest b) →
      post_topic b ≠ "" →
      Server.status
        (Server.sendMessage clock broker bindSendMessageRequest
           requestBody w).1
      ≠ Server.StatusBadRequest.
Proof.
  intros Hin.
  pose proof (pageRun_posted evs) as Hall.
  rewrite Forall_forall in Hall. destruct (Hall b Hin) as [Hc Ha].
  split; [done|].
  intros clock broker bindreq requestBody w Hb Ht.
  by apply (valid_request_not_rejected clock broker bindreq requestBody
              (asRequest b) w).
Qed.

(** X18: when the request to /api/messages is rejected or answered with
    a response that is not ok, the draft stays in the field and nothing
    more is posted; with a current subscription object the message
    built from the current topic, the draft and the name as they are
    now is published on that object, and without one the user is
    alerted at once. *)
Theorem failed_post_falls_back (p : Page) (n : nat) (r : PostResult)
    (a : Ambient) :
  pendingPosts p = S n → r ≠ PostResponded true →
  let p' := pageStep' p (PgPostSettled r a) in
  let message := {|
    id := pretty (dateNow a) +:+ "-" +:+ randomSuffix a;
    topic := currentTopic (script p);
    content := trim (newMessage p);
    author := trim (username (script p));
    timestamp := isoString a
  |} in
  newMessage p' = newMessage p
  ∧ posted p' = posted p
  ∧ pendingPosts p' = n
  ∧ match subscription (script p) with
    | Some sub =>
      outside p'
      = outside p ++ [ConsoleError "Failed to send message via API:";
                      Publish sub message]
      ∧ pendingPublishes p' = S (pendingPublishes p)
    | None =>
      outside p'
      = outside p
        ++ [ConsoleError "Failed to send message via API:";
            ConsoleError "Failed to send message via WebSocket fallback:";
            Alert "Failed to send message. Please check your connection."]
      ∧ pendingPublishes p' = pendingPublishes p
    end.
Proof.
  intros Hp Hr. simpl. rewrite Hp.
  unfold sendMessage_afterPost, posted.
  destruct r as [|[]]; [|done|];
    destruct (subscription (script p)) eqn:Hsub; simpl; rewrite Hsub; simpl;
    rewrite <- ?app_assoc, !omap_app; simpl; by rewrite ?app_nil_r.
Qed.

(** X19: no failed send loses the draft: a turn changes the message
    field only when the user types, when the request to /api/messages
    is answered ok, or when the fallback publish resolves. *)
Theorem draft_changes_only_on_typing_or_success (p : Page) (e : PageEvent) :
  newMessage (pageStep' p e) ≠ newMessage p →
  (∃ text, e = PgType text)
  ∨ (∃ a, e = PgPostSettled (PostResponded true) a)
  ∨ e = PgPublishSettled true.
Proof.
  destruct e as [e|text|key shiftKey| |r a|resolved|]; simpl;
    try (intros H; by destruct H).
  - by eauto.
  - unfold handleKeyPress, Page.sendMessage.
    destruct (_ && _); [|intros H; by destruct H].
    destruct (_ || _); intros H; by destruct H.
  - unfold Page.sendMessage.
    destruct (_ || _); intros H; by destruct H.
  - destruct (pendingPosts p) as [|n]; [intros H; by destruct H|].
    destruct r as [|[]]; [| by eauto |];
      unfold sendMessage_afterPost; simpl;
      destruct (subscription (script p)); simpl; intros H; by destruct H.
  - destruct (pendingPublishes p) as [|n]; [intros H; by destruct H|].
    destruct resolved; [by eauto|]. simpl. intros H; by destruct H.
Qed.

End PageProperties.

(** The further theorems at the sample process and the sample page. *)
Section FurtherWitnesses.
Import Server Catalog.

Lemma config_never_empty_witness :
  getEnv Sample.Getenv "CENTRIFUGO_TOKEN_HMAC_SECRET_KEY"
    "token_hmac_secret_key" = "s3cret"
  ∧ getEnv Sample.Getenv "PORT" "8080" = "8080".
Proof.
  destruct (config_never_empty Sample.Getenv
              "CENTRIFUGO_TOKEN_HMAC_SECRET_KEY" "token_hmac_secret_key"
              "s3cret") as (_ & _ & _ & H & _).
  destruct (config_never_empty Sample.Getenv "PORT" "8080" "")
    as (_ & _ & _ & _ & H').
  split; [by apply H | by apply H'].
Defined.

Lemma sendMessage_publishes_the_request_witness :
  body (sendMessage Sample.clock Sample.broker Sample.bindSendMessageRequest
          "general" Sample.start).1
  = H_success true (messageOf Sample.clock Sample.general Sample.start).
Proof.
  destruct (sendMessage_publishes_the_request Sample.clock Sample.broker
              Sample.bindSendMessageRequest "general" Sample.general
              Sample.start eq_refl) as (_ & _ & H).
  apply H. by vm_compute.
Defined.

Lemma fan_out_logs_each_failure_witness :
  logged (sendMessage Sample.clock Sample.broker
            Sample.bindSendMessageRequest "all" Sample.start).2
  = [] ++ omap (loggedFor Sample.broker
                  (messageOf Sample.clock Sample.all Sample.start) []
                  topics)
               (numbered topics).
Proof.
  apply (fan_out_logs_each_failure Sample.clock Sample.broker
           Sample.bindSendMessageRequest "all" Sample.all Sample.start);
    done.
Defined.

Lemma token_lives_a_day_witness :
  ∃ (claims : gmap string ClaimValue) (iat exp : Z),
    claims !! "iat" = Some (ClaimInt iat)
    ∧ claims !! "exp" = Some (ClaimInt exp)
    ∧ (iat + 86400 ≤ exp)%Z
    ∧ ((Sample.clock 1 < Sample.clock 0 + Second)%Z → (exp ≤ iat + 86401)%Z)
    ∧ (getToken Sample.Getenv Sample.clock Sample.SignedString
         Sample.bindTokenRequest "alice" Sample.start).1
      = match Sample.SignedString SigningMethodHS256 claims
                (TokenHMACSecretKey (centrifugoConfig Sample.Getenv)) with
        | inl token => JSON StatusOK (TokenResponse token)
        | inr _ =>
          JSON StatusInternalServerError (H_error "Failed to generate token")
        end.
Proof.
  apply (token_lives_a_day Sample.Getenv Sample.clock Sample.SignedString
           Sample.bindTokenRequest "alice" {| User := "alice" |}
           Sample.start); [reflexivity | done | by vm_compute].
Defined.

Lemma message_ids_follow_the_clock_witness :
  ID (messageOf Sample.clock Sample.general Sample.start)
  = ID (messageOf Sample.clock Sample.all
          {| clockReads := 2; attempts := []; logged := [] |})
  ↔ Sample.clock 0 = Sample.clock 2.
Proof.
  destruct (message_ids_follow_the_clock Sample.clock Sample.general
              Sample.all Sample.start
              {| clockReads := 2; attempts := []; logged := [] |})
    as [_ H].
  apply H; unfold Sample.clock, Second; simpl; lia.
Defined.

Lemma catalog_is_fan_out_witness :
  channels (drop 0
              (attempts (sendMessage Sample.clock Sample.deadBroker
                           Sample.bindSendMessageRequest "all"
                           Sample.start).2))
  = (λ t, "topic:" +:+ t)
    <$> ["all"; "general"; "tech"; "random"; "announcements"].
Proof.
  apply (catalog_is_fan_out Sample.clock Sample.deadBroker
           Sample.bindSendMessageRequest "all" Sample.all Sample.start
           Sample.start); done.
Defined.

End FurtherWitnesses.

Section PageWitnesses.
Import Client Page.

Lemma at_most_one_subscribed_witness :
  subscription (run firstConnect init) = Some 0
  ∧ channel {| channel := "topic:all"; client := 0;
               publicationListeners := ["all"]; subscribed := true |}
    = channelOf (currentTopic (run firstConnect init)).
Proof.
  apply (at_most_one_subscribed firstConnect 0
           {| channel := "topic:all"; client := 0;
              publicationListeners := ["all"]; subscribed := true |});
    by vm_compute.
Defined.

Lemma subscription_objects_stay_with_their_client_witness :
  let s := run firstConnect init in
  centrifuge (run reconnectAsBob s) = Some 1
  ∧ subscriptions (run reconnectAsBob s) !! "topic:all" = Some 0
  ∧ ∃ o', handles (run reconnectAsBob s) !! 0 = Some o'
          ∧ channel o' = "topic:all"
          ∧ client o' = 0
          ∧ publicationListeners o' = ["all"].
Proof.
  intros s. split; [by vm_compute|].
  destruct (subscription_objects_stay_with_their_client s reconnectAsBob
              "topic:all" 0
              {| channel := "topic:all"; client := 0;
                 publicationListeners := ["all"]; subscribed := true |})
    as [[H1 H2] _]; [by vm_compute | by vm_compute |].
  split; [exact H1 | exact H2].
Defined.

Lemma teardown_unsubscribes_everything_witness :
  let s := run firstConnect init in
  (centrifuge s = Some 0 ∧ live s 0 = true)
  ∧ live (onDestroy s) 0 = false
  ∧ connected (onDestroy s) = false.
Proof.
  intros s. split; [by vm_compute|].
  destruct (teardown_unsubscribes_everything firstConnect) as (_ & _ & _ & H).
  destruct (H 0) as (Hl & Hc & _); [by vm_compute|].
  split; [exact Hl|]. apply Hc. by vm_compute.
Defined.

Lemma send_posts_only_when_ready_witness :
  (sampleTrim (newMessage draftedPage) ≠ ""
   ∧ sampleTrim (username (script draftedPage)) ≠ ""
   ∧ connected (script draftedPage) = true)
  ∧ outside (Page.sendMessage sampleTrim draftedPage)
    = outside draftedPage
      ++ [PostMessages
            {| post_topic := currentTopic (script draftedPage);
               post_content := sampleTrim (newMessage draftedPage);
               post_author := sampleTrim (username (script draftedPage)) |}]
  ∧ newMessage (Page.sendMessage sampleTrim draftedPage)
    = newMessage draftedPage
  ∧ script (Page.sendMessage sampleTrim draftedPage) = script draftedPage.
Proof.
  split; [by vm_compute|].
  destruct (send_posts_only_when_ready sampleTrim draftedPage "Enter" false)
    as (_ & _ & H).
  apply H; by vm_compute.
Defined.

Lemma posted_bodies_pass_the_relay_check_witness :
  let b := {| post_topic := "all"; post_content := "hi";
              post_author := "User7" |} in
  b ∈ posted sentPage
  ∧ post_content b ≠ "" ∧ post_author b ≠ "".
Proof.
  intros b.
  assert (b ∈ posted sentPage) as Hin by (vm_compute; apply list_elem_of_here).
  split; [exact Hin|].
  destruct (posted_bodies_pass_the_relay_check sampleTrim
              ((PgScript <$> firstConnect) ++ [PgType " hi "; PgClickSend])
              b) as [H _]; [|exact H].
  vm_compute. apply list_elem_of_here.
Defined.

Lemma failed_post_falls_back_witness :
  let p' := pageStep sampleTrim sentPage
              (PgPostSettled (PostResponded false) sampleAmbient) in
  (pendingPosts sentPage = 1 ∧ PostResponded false ≠ PostResponded true)
  ∧ newMessage p' = newMessage sentPage
  ∧ posted p' = posted sentPage
  ∧ pendingPosts p' = 0.
Proof.
  intros p'. split; [by vm_compute|].
  pose proof (failed_post_falls_back sampleTrim sentPage 0
                (PostResponded false) sampleAmbient) as H.
  destruct H as (H1 & H2 & H3 & _); [by vm_compute | done |].
  split; [exact H1 | split; [exact H2 | exact H3]].
Defined.

Lemma draft_changes_only_on_typing_or_success_witness :
  newMessage (pageStep sampleTrim draftedPage (PgType "")) ≠
  newMessage draftedPage
  ∧ ((∃ text, PgType "" = PgType text)
     ∨ (∃ a, PgType "" = PgPostSettled (PostResponded true) a)
     ∨ PgType "" = PgPublishSettled true).
Proof.
  assert (newMessage (pageStep sampleTrim draftedPage (PgType "")) ≠
          newMessage draftedPage) as Hne by (by vm_compute).
  split; [exact Hne|].
  exact (draft_changes_only_on_typing_or_success sampleTrim draftedPage
           (PgType "") Hne).
Defined.

End PageWitnesses.
